(** * Funding-rate arbitrage: scorer, backtest loop and two-leg executor

    A shallow embedding of the Python sources

      - [src/models/opportunity_scorer.py] ([OpportunityScorer]),
      - [src/monitor.py] ([extract_base]),
      - [src/backtest.py] ([run_backtest]),
      - [src/execution/executor.py] ([ArbExecutor], [SimulatedClient]),
      - [src/config.py] (the configuration dataclasses).

    Python floats are modelled as exact rationals [Q]; the arithmetic
    expressions are written in the order the source evaluates them.
    Python exceptions are a value [PyExc class message]; a float division
    [a / b] raises [ZeroDivisionError] when [b] is zero and is modelled as
    the fallible [pydiv]. *)

From Stdlib Require Import QArith Qround Lia Lqa.
From Stdlib Require Import List Permutation Sorted String Ascii.
From stdpp Require Import base gmap strings pretty.
Import ListNotations.

Open Scope Q_scope.

(* ------------------------------------------------------------------ *)
(** ** Python strings *)

Module PyStr.

(** [s.endswith(suf)] *)
Definition endswith (s suf : string) : bool :=
  let l := list_ascii_of_string s in
  let m := list_ascii_of_string suf in
  Nat.leb (length m) (length l) &&
  bool_decide (skipn (length l - length m) l = m).

(** [len(s)] *)
Definition len (s : string) : nat := length (list_ascii_of_string s).

(** [s[:-len(suf)]] for a non-empty [suf] *)
Definition drop_suffix (s suf : string) : string :=
  let l := list_ascii_of_string s in
  string_of_list_ascii (firstn (length l - length (list_ascii_of_string suf)) l).

End PyStr.

(* ------------------------------------------------------------------ *)
(** ** Python exceptions and results *)

Inductive exn : Type :=
  | PyExc (cls : string) (msg : string).

Inductive res (A : Type) : Type :=
  | Ok (a : A)
  | Raise (e : exn).
Arguments Ok {A} a.
Arguments Raise {A} e.

Definition exn_class (e : exn) : string :=
  match e with PyExc c _ => c end.

(** Python's [a < b] on floats. *)
Definition qltb (a b : Q) : bool := negb (Qle_bool b a).

(** Python's true division on floats. *)
Definition pydiv (a b : Q) : res Q :=
  if Qeq_bool b 0 then Raise (PyExc "ZeroDivisionError" "float division by zero")
  else Ok (a / b).

(** A numpy [float64]: a finite value, [inf], [-inf] or [nan]. *)
Inductive f64 :=
  | F64 (q : Q)
  | PosInf
  | NegInf
  | NaN.

(** numpy's true division [a / b] with a [float64] operand: it does not
    raise; a zero divisor (taken as [+0.0]) gives [inf], [-inf] or [nan] by
    the sign of [a]. *)
Definition np_div (a b : Q) : f64 :=
  if Qeq_bool b 0 then
    if qltb 0 a then PosInf else if qltb a 0 then NegInf else NaN
  else F64 (a / b).

(** numpy's [x * c] for a [float64] [x] and a float [c]. *)
Definition np_mul (x : f64) (c : Q) : f64 :=
  match x with
  | F64 q => F64 (q * c)
  | PosInf => if qltb 0 c then PosInf else if qltb c 0 then NegInf else NaN
  | NegInf => if qltb 0 c then NegInf else if qltb c 0 then PosInf else NaN
  | NaN => NaN
  end.

(* ------------------------------------------------------------------ *)
(** ** Configuration ([src/config.py]) *)

Record TradingConfig := {
  min_net_yield_pct : Q;
  min_funding_rate : Q;
  max_position_usd : Q;
  total_capital_usd : Q;
  max_positions : Z;
  liq_buffer_pct : Q;
  exit_funding_threshold : Q;
  max_hold_hours : Z;
  stop_loss_pct : Q
}.

Definition TradingConfig_default : TradingConfig := {|
  min_net_yield_pct := 50;
  min_funding_rate := -15 # 10000;
  max_position_usd := 1000;
  total_capital_usd := 10000;
  max_positions := 5;
  liq_buffer_pct := 50;
  exit_funding_threshold := -1 # 10000;
  max_hold_hours := 72;
  stop_loss_pct := 2
|}.

Record CostModel := {
  binance_maker : Q;
  binance_taker : Q;
  bybit_maker : Q;
  bybit_taker : Q;
  hyperliquid_maker : Q;
  hyperliquid_taker : Q;
  okx_maker : Q;
  okx_taker : Q;
  slippage_estimate : Q;
  default_borrow_apr : Q
}.

Definition CostModel_default : CostModel := {|
  binance_maker := 2 # 10000;
  binance_taker := 4 # 10000;
  bybit_maker := 2 # 10000;
  bybit_taker := 55 # 100000;
  hyperliquid_maker := 2 # 10000;
  hyperliquid_taker := 5 # 10000;
  okx_maker := 2 # 10000;
  okx_taker := 5 # 10000;
  slippage_estimate := 5 # 10000;
  default_borrow_apr := 30 # 100
|}.

(** The exchange credentials of [Config.exchanges] play no part in the
    scorer and are left out. *)
Record Config := {
  trading : TradingConfig;
  costs : CostModel;
  symbol_whitelist : list string
}.

Definition default_whitelist : list string :=
  ["BTC"; "ETH"; "SOL"; "DOGE"; "XRP"; "ADA"; "AVAX"; "LINK";
   "DOT"; "MATIC"; "UNI"; "ATOM"; "LTC"; "BCH"; "APT"; "ARB";
   "OP"; "INJ"; "SUI"; "SEI"; "TIA"; "JUP"; "PYTH"; "JTO";
   "WIF"; "BONK"; "PEPE"; "SHIB"; "FIL"; "NEAR"; "RENDER"]%string.

Definition Config_default : Config := {|
  trading := TradingConfig_default;
  costs := CostModel_default;
  symbol_whitelist := default_whitelist
|}.

(* ------------------------------------------------------------------ *)
(** ** Base-asset extraction *)

Definition suffixes : list string :=
  ["USDT"; "USD"; "PERP"; "-USDT-SWAP"; "-USD-SWAP"]%string.

Fixpoint strip_first (sufs : list string) (symbol : string) : string :=
  match sufs with
  | [] => symbol
  | suffix :: rest =>
      if PyStr.endswith symbol suffix then PyStr.drop_suffix symbol suffix
      else strip_first rest symbol
  end.

(** [OpportunityScorer.extract_base_asset] *)
Definition extract_base_asset (symbol : string) : string :=
  strip_first suffixes symbol.

(** [monitor.extract_base]: the same loop over its own literal list. *)
Definition extract_base (symbol : string) : string :=
  strip_first ["USDT"; "USD"; "PERP"; "-USDT-SWAP"; "-USD-SWAP"]%string symbol.


(* ------------------------------------------------------------------ *)
(** ** Opportunity scoring ([src/models/opportunity_scorer.py]) *)

Module RateData.
(** A rate record [{"exchange": str, "symbol": str, "rate": float}]. *)
Record t := mk {
  exchange : string;
  symbol : string;
  rate : Q
}.
End RateData.

Module Opportunity.
Record t := mk {
  exchange : string;
  symbol : string;
  base_asset : string;
  funding_rate : Q;
  funding_annualized : Q;
  entry_cost : Q;
  exit_cost : Q;
  slippage_cost : Q;
  borrow_cost_8h : Q;
  net_yield_8h : Q;
  net_yield_annualized : Q;
  liquidity_score : Q;
  timestamp : string
}.
End Opportunity.

Section Scorer.

(** The scorer's [self.config]; [self.costs] and [self.trading] are its
    fields. [now] is the value of [datetime.utcnow().isoformat()]. *)
Variable config : Config.
Variable now : string.

(** [get_fees]: (maker, taker) from the fee map, default (0.0005, 0.0005). *)
Definition get_fees (exchange : string) : Q * Q :=
  let c := costs config in
  if String.eqb exchange "binance" then (binance_maker c, binance_taker c)
  else if String.eqb exchange "bybit" then (bybit_maker c, bybit_taker c)
  else if String.eqb exchange "hyperliquid" then (hyperliquid_maker c, hyperliquid_taker c)
  else if String.eqb exchange "okx" then (okx_maker c, okx_taker c)
  else (5 # 10000, 5 # 10000).

(** Python's [x in xs] on a list of strings. *)
Definition py_in (x : string) (xs : list string) : bool :=
  existsb (String.eqb x) xs.

Definition is_whitelisted (symbol : string) : bool :=
  py_in (extract_base_asset symbol) (symbol_whitelist config).

Definition major_assets : list string := ["BTC"; "ETH"; "SOL"; "XRP"; "DOGE"]%string.

Definition calculate_opportunity (rate_data : RateData.t) : option Opportunity.t :=
  let exchange := RateData.exchange rate_data in
  let symbol := RateData.symbol rate_data in
  let funding_rate := RateData.rate rate_data in
  if Qle_bool 0 funding_rate then None
  else if negb (is_whitelisted symbol) then None
  else if negb (Qle_bool funding_rate (min_funding_rate (trading config))) then None
  else
    let base_asset := extract_base_asset symbol in
    let '(maker_fee, taker_fee) := get_fees exchange in
    let entry_cost := 2 * taker_fee in
    let exit_cost := 2 * maker_fee in
    let slippage_cost := slippage_estimate (costs config) * 2 in
    let borrow_cost_8h := default_borrow_apr (costs config) / (3 * 365) in
    let funding_received := - funding_rate in
    let periods := 3 in
    let amortized_entry_exit := (entry_cost + exit_cost + slippage_cost) / periods in
    let net_yield_8h := funding_received - borrow_cost_8h - amortized_entry_exit in
    let net_yield_annualized := net_yield_8h * 3 * 365 * 100 in
    let liquidity_score := if py_in base_asset major_assets then 9 # 10 else 1 # 2 in
    Some (Opportunity.mk exchange symbol base_asset funding_rate
            (funding_rate * 3 * 365 * 100)
            entry_cost exit_cost slippage_cost borrow_cost_8h
            net_yield_8h net_yield_annualized liquidity_score now).

(** The filter loop of [score_all]. *)
Fixpoint collect (rates : list RateData.t) : list Opportunity.t :=
  match rates with
  | [] => []
  | rate :: rest =>
      match calculate_opportunity rate with
      | Some opp =>
          if Qle_bool (min_net_yield_pct (trading config)) (Opportunity.net_yield_annualized opp)
          then opp :: collect rest else collect rest
      | None => collect rest
      end
  end.

End Scorer.

(** [list.sort(key=lambda x: x.net_yield_annualized, reverse=True)].
    Python's sort is stable also with [reverse=True]: equal keys keep their
    input order. A stable sort is determined by its key, so the insertion
    sort below computes the same list as CPython's timsort. *)
Definition key (o : Opportunity.t) : Q := Opportunity.net_yield_annualized o.

Fixpoint insert_desc (x : Opportunity.t) (l : list Opportunity.t) : list Opportunity.t :=
  match l with
  | [] => [x]
  | y :: ys => if Qle_bool (key y) (key x) then x :: y :: ys else y :: insert_desc x ys
  end.

Fixpoint sort_desc (l : list Opportunity.t) : list Opportunity.t :=
  match l with
  | [] => []
  | x :: xs => insert_desc x (sort_desc xs)
  end.

Definition score_all (config : Config) (now : string) (rates : list RateData.t)
  : list Opportunity.t :=
  sort_desc (collect config now rates).

(** The order [score_all] produces: non-increasing [net_yield_annualized]. *)
Definition yield_desc (a b : Opportunity.t) : Prop := key b <= key a.

Definition key_is (q : Q) (o : Opportunity.t) : bool := Qeq_bool (key o) q.

(* ------------------------------------------------------------------ *)
(** ** Backtest ([src/backtest.py]) *)

Record BacktestConfig := {
  entry_threshold : Q;
  exit_threshold : Q;
  entry_cost : Q;
  exit_cost : Q;
  slippage : Q;
  borrow_rate_8h : Q;
  position_size : Q;
  bt_max_positions : Z
}.

Definition BacktestConfig_default : BacktestConfig := {|
  entry_threshold := -15 # 10000;
  exit_threshold := -5 # 10000;
  entry_cost := 1 # 1000;
  exit_cost := 4 # 10000;
  slippage := 1 # 1000;
  borrow_rate_8h := 274 # 1000000;
  position_size := 1000;
  bt_max_positions := 3
|}.

(** One record of the Binance funding history: a dict with a float
    ["fundingRate"], an int ["fundingTime"] in milliseconds within the range
    of pandas' timestamps, and an optional ["symbol"]. On such records the
    frame's key lookups, [astype(float)] and [pd.to_datetime(unit="ms")]
    cannot raise; records without these keys, with a rate that is not a
    number or with a time out of range (where the code raises [KeyError],
    [ValueError] or [OutOfBoundsDatetime]) are not modelled. *)
Module Row.
Record t := mk {
  fundingRate : Q;
  fundingTime : Z;
  symbol : option string
}.
End Row.

(** A trade dictionary of [run_backtest]; its ["pnl_pct"] is a numpy
    [float64] since [trade_pnl] is one. *)
Module Trade.
Record t := mk {
  entry_time : Z;
  exit_time : Z;
  periods : nat;
  avg_funding : Q;
  funding_collected : Q;
  costs : Q;
  pnl : Q;
  pnl_pct : f64
}.
End Trade.

(** [df.sort_values("timestamp").reset_index(drop=True)], as a stable
    insertion sort on the funding time; on distinct funding times every
    sort gives this order. *)
Fixpoint insert_by_time (r : Row.t) (l : list Row.t) : list Row.t :=
  match l with
  | [] => [r]
  | y :: ys => if Z.leb (Row.fundingTime r) (Row.fundingTime y) then r :: y :: ys
               else y :: insert_by_time r ys
  end.

Fixpoint sort_by_time (l : list Row.t) : list Row.t :=
  match l with
  | [] => []
  | r :: rs => insert_by_time r (sort_by_time rs)
  end.

Definition row_default : Row.t := Row.mk 0 0 None.

(** [df.iloc[j]["fundingRate"]] *)
Definition rate_at (df : list Row.t) (j : nat) : Q := Row.fundingRate (nth j df row_default).
Definition time_at (df : list Row.t) (j : nat) : Z := Row.fundingTime (nth j df row_default).

(** The simulation state of [run_backtest]. *)
Record SimState := {
  position_open : bool;
  entry_rate : Q;
  entry_idx : nat;
  trades : list Trade.t;
  total_pnl : Q;
  total_funding : Q;
  total_costs : Q
}.

Definition sim_init : SimState := {|
  position_open := false; entry_rate := 0; entry_idx := 0; trades := [];
  total_pnl := 0; total_funding := 0; total_costs := 0 |}.

Section Backtest.

Variable config : BacktestConfig.
Variable df : list Row.t.

(** [sum(-df.iloc[j]["fundingRate"] * config.position_size for j in range(a, b))] *)
Definition funding_sum (a b : nat) : Q :=
  fold_left (fun acc j => acc + - rate_at df j * position_size config) (seq a (b - a)) 0.

(** The body of [for i, row in df.iterrows()]. [trade_funding] is a sum of
    numpy [float64] values ([df.iloc[j]["fundingRate"]]), so [trade_pnl] is
    a [float64] and [trade_pnl / config.position_size] does not raise: on
    these records the body raises nowhere and always returns [Ok]. *)
Definition step (st : SimState) (i : nat) (row : Row.t) : res SimState :=
  let rate := Row.fundingRate row in
  if negb (position_open st) then
    if qltb rate (entry_threshold config) then
      Ok {| position_open := true; entry_rate := rate; entry_idx := i;
            trades := trades st; total_pnl := total_pnl st;
            total_funding := total_funding st;
            total_costs := total_costs st
                           + (entry_cost config + slippage config) * position_size config |}
    else Ok st
  else
    let funding_received := - rate * position_size config in
    let total_funding' := total_funding st + funding_received in
    let total_costs' := total_costs st + borrow_rate_8h config * position_size config in
    if qltb (exit_threshold config) rate then
      let total_costs'' := total_costs' + exit_cost config * position_size config in
      let periods := (i - entry_idx st)%nat in
      let trade_funding := funding_sum (entry_idx st) (S i) in
      let trade_costs :=
        (entry_cost config + exit_cost config + slippage config) * position_size config
        + borrow_rate_8h config * position_size config * inject_Z (Z.of_nat periods) in
      let trade_pnl := trade_funding - trade_costs in
      let t := Trade.mk (time_at df (entry_idx st)) (Row.fundingTime row) periods
                 (entry_rate st) trade_funding trade_costs trade_pnl
                 (np_mul (np_div trade_pnl (position_size config)) 100) in
      Ok {| position_open := false; entry_rate := entry_rate st;
            entry_idx := entry_idx st; trades := trades st ++ [t];
            total_pnl := total_pnl st + trade_pnl;
            total_funding := total_funding'; total_costs := total_costs'' |}
    else
      Ok {| position_open := true; entry_rate := entry_rate st;
            entry_idx := entry_idx st; trades := trades st;
            total_pnl := total_pnl st;
            total_funding := total_funding'; total_costs := total_costs' |}.

Fixpoint loop (rows : list Row.t) (i : nat) (st : SimState) : res SimState :=
  match rows with
  | [] => Ok st
  | row :: rest =>
      match step st i row with
      | Raise e => Raise e
      | Ok st' => loop rest (S i) st'
      end
  end.

End Backtest.

(** The loop of [run_backtest] over a sorted frame. *)
Definition simulate (config : BacktestConfig) (df : list Row.t) : res SimState :=
  loop config df df 0 sim_init.

(** The first [k] iterations of the loop over [df]. *)
Definition after (config : BacktestConfig) (df : list Row.t) (k : nat) : res SimState :=
  loop config df (firstn k df) 0 sim_init.

(** Sum of [f] over a list. *)
Definition qsum {A} (f : A -> Q) (l : list A) : Q := fold_right (fun x acc => f x + acc) 0 l.

(** The funding of a trade's entry period: [-entry_rate * position_size]
    (the trade records the entry rate as [avg_funding]). *)
Definition entry_funding (config : BacktestConfig) (t : Trade.t) : Q :=
  - Trade.avg_funding t * position_size config.

(** Funding bookkeeping of the loop after [k] iterations: each trade's
    [funding_collected] sums the funding from its entry index to its exit
    index inclusive, and the trades' funding plus the funding of an open
    position since its entry balances [total_funding] plus the entry-period
    funding of every position. *)
Definition fund_inv (config : BacktestConfig) (df : list Row.t) (s : SimState) (k : nat)
  : Prop :=
  (position_open s = true ->
     (entry_idx s < k)%nat /\ entry_rate s = rate_at df (entry_idx s)) /\
  (forall t, In t (trades s) -> exists e x, (e < x < k)%nat /\
     Trade.periods t = (x - e)%nat /\ Trade.avg_funding t = rate_at df e /\
     Trade.funding_collected t = funding_sum config df e (S x)) /\
  qsum Trade.funding_collected (trades s)
    + (if position_open s then funding_sum config df (entry_idx s) k else 0)
  == total_funding s + qsum (entry_funding config) (trades s)
    + (if position_open s then - entry_rate s * position_size config else 0).

(** A frame of funding records eight hours apart with the given rates. *)
Fixpoint rows_from (i : Z) (rates : list Q) : list Row.t :=
  match rates with
  | [] => []
  | r :: rs => Row.mk r (i * 28800000) None :: rows_from (i + 1)%Z rs
  end.

Definition lifecycle_rows : list Row.t :=
  rows_from 0 [-2 # 1000; -18 # 10000; -2 # 10000; 0].

(** One trade (indices 0 to 2), then a position opened at index 3 that is
    still open at the end. *)
Definition open_end_rows : list Row.t :=
  rows_from 0 [-2 # 1000; -18 # 10000; -2 # 10000; -2 # 1000; -18 # 10000].

(** The default thresholds with every cost set to zero. *)
Definition costless_config : BacktestConfig :=
  {| entry_threshold := -15 # 10000; exit_threshold := -5 # 10000;
     entry_cost := 0; exit_cost := 0; slippage := 0;
     borrow_rate_8h := 0; position_size := 1000; bt_max_positions := 3 |}.

(** The default configuration with a zero position size. *)
Definition zero_size_config : BacktestConfig :=
  {| entry_threshold := -15 # 10000; exit_threshold := -5 # 10000;
     entry_cost := 1 # 1000; exit_cost := 4 # 10000; slippage := 1 # 1000;
     borrow_rate_8h := 274 # 1000000; position_size := 0; bt_max_positions := 3 |}.

Record BacktestReport := {
  report_symbol : string;
  period_days : Z;
  data_points : nat;
  total_trades : nat;
  report_total_funding : Q;
  report_total_costs : Q;
  report_total_pnl : Q;
  pnl_per_trade : Q;
  win_rate : Q;
  avg_hold_periods : Q;
  annualized_return : f64;
  report_trades : list Trade.t
}.

(** [{"error": "No data"}] or the metrics dictionary. *)
Inductive BacktestResult :=
  | NoData
  | Report (r : BacktestReport).

Definition qlen {A} (l : list A) : Q := inject_Z (Z.of_nat (length l)).

Definition ms_per_day : Z := 86400000.

(** [run_backtest] on records of [Row.t]. [total_pnl] starts as the int
    [0] and becomes a numpy [float64] with the first trade's
    [total_pnl += trade_pnl]: [annualized_return] divides with Python's
    division (raising [ZeroDivisionError] on a zero [position_size]) when
    no trade completed, and with numpy's otherwise. [days] is the
    [Timedelta]'s whole days, or 1 when that is 0. *)
Definition run_backtest (funding_data : list Row.t) (config : BacktestConfig)
  : res BacktestResult :=
  match funding_data with
  | [] => Ok NoData
  | first :: _ =>
      let df := sort_by_time funding_data in
      match simulate config df with
      | Raise e => Raise e
      | Ok st =>
          let n := length df in
          let d := Z.div (time_at df (n - 1) - time_at df 0) ms_per_day in
          let days := if Z.eqb d 0 then 1%Z else d in
          let ts := trades st in
          let pnl_per_trade := if ts then 0 else total_pnl st / qlen ts in
          let win_rate :=
            if ts then 0
            else qlen (List.filter (fun t => qltb 0 (Trade.pnl t)) ts) / qlen ts * 100 in
          let avg_hold :=
            if ts then 0
            else fold_left (fun acc t => acc + inject_Z (Z.of_nat (Trade.periods t))) ts 0
                 / qlen ts in
          let annualized :=
            if Z.eqb days 0 then Ok (F64 0)
            else match ts with
                 | [] =>
                     match pydiv (total_pnl st) (position_size config) with
                     | Raise e => Raise e
                     | Ok q => Ok (F64 (q * (365 / inject_Z days) * 100))
                     end
                 | _ :: _ =>
                     Ok (np_mul (np_mul (np_div (total_pnl st) (position_size config))
                                        (365 / inject_Z days)) 100)
                 end in
          match annualized with
          | Raise e => Raise e
          | Ok ann =>
              Ok (Report {|
                report_symbol := match Row.symbol first with Some s => s | None => "unknown"%string end;
                period_days := days;
                data_points := n;
                total_trades := length ts;
                report_total_funding := total_funding st;
                report_total_costs := total_costs st;
                report_total_pnl := total_pnl st;
                pnl_per_trade := pnl_per_trade;
                win_rate := win_rate;
                avg_hold_periods := avg_hold;
                annualized_return := ann;
                report_trades := skipn (length ts - 10) ts |})
          end
      end
  end.

(* ------------------------------------------------------------------ *)
(** ** Execution ([src/execution/executor.py]) *)

Inductive Side := LONG | SHORT.
Inductive OrderType := MARKET | LIMIT.

Module Order.
Record t := mk {
  exchange : string;
  symbol : string;
  side : Side;
  size : Q;
  order_type : OrderType;
  price : option Q;
  order_id : option string;
  status : string;
  fill_price : option Q;
  filled_size : Q
}.
(** [Order(exchange=..., symbol=..., side=..., size=..., order_type=...)]
    with the dataclass defaults for the other fields. *)
Definition new (exchange symbol : string) (side : Side) (size : Q) (ty : OrderType) : t :=
  mk exchange symbol side size ty None None "pending" None 0.
End Order.

Module Position.
Record t := mk {
  exchange : string;
  symbol : string;
  side : Side;
  size : Q;
  entry_price : option Q;
  entry_time : Q;
  pnl : Q;
  funding_collected : Q
}.
End Position.

Module ArbPosition.
Record t := mk {
  id : string;
  long_leg : Position.t;
  short_leg : Position.t;
  base_asset : string;
  entry_time : Q;
  target_funding_rate : Q;
  total_funding_collected : Q;
  total_pnl : Q;
  status : string
}.
Definition set_status (p : t) (s : string) : t :=
  mk (id p) (long_leg p) (short_leg p) (base_asset p) (entry_time p)
     (target_funding_rate p) (total_funding_collected p) (total_pnl p) s.
End ArbPosition.

(** The dictionary returned by [close_position]. *)
Module Summary.
Record t := mk {
  pos_id : string;
  total_funding : Q;
  total_pnl : Q
}.
End Summary.

(** An exchange client, seen through [place_order]: the order comes back
    (filled, partially filled or not) or the call raises. The client's own
    bookkeeping is not observed by the executor and is left out. *)
Definition Client := Order.t -> res Order.t.

(** [SimulatedClient.place_order]: fills the full size at [price or 100].
    [ms] is [int(time.time()*1000)]. *)
Definition sim_place_order (ms : Z) : Client := fun o =>
  let fill := match Order.price o with
              | Some p => if Qeq_bool p 0 then 100 else p
              | None => 100
              end in
  Ok (Order.mk (Order.exchange o) (Order.symbol o) (Order.side o) (Order.size o)
         (Order.order_type o) (Order.price o) (Some ("sim_" +:+ pretty ms)%string)
         "filled" (Some fill) (Order.size o)).

(** Objects are shared: [active_positions] maps an id to a reference into
    the object heap, so the [ArbPosition] returned by [open_position] and
    the one stored in the dictionary are the same object. *)
Abbreviation loc := positive (only parsing).

Record ExecState := {
  clients : gmap string Client;
  active_positions : gmap string loc;
  heap : gmap loc ArbPosition.t;
  next_loc : loc
}.

(** Executor computations: state passing with Python exceptions. *)
Definition M (A : Type) : Type := ExecState -> res A * ExecState.

Definition m_ret {A} (a : A) : M A := fun s => (Ok a, s).
Definition m_bind {A B} (m : M A) (f : A -> M B) : M B := fun s =>
  match m s with
  | (Ok a, s') => f a s'
  | (Raise e, s') => (Raise e, s')
  end.
Definition m_raise {A} (e : exn) : M A := fun s => (Raise e, s).
Definition m_lift {A} (r : res A) : M A := fun s => (r, s).
Definition m_get : M ExecState := fun s => (Ok s, s).
Definition m_put (s : ExecState) : M unit := fun _ => (Ok tt, s).

Notation "x <- m ;; k" := (m_bind m (fun x => k))
  (at level 65, m at next level, right associativity).

(** [d[k]] on a dictionary: [KeyError] when [k] is absent. *)
Definition dict_get {V} (d : gmap string V) (k : string) : res V :=
  match d !! k with
  | Some v => Ok v
  | None => Raise (PyExc "KeyError" k)
  end.

(** [asyncio.gather(a, b)] on two order placements. If both raise, the
    exception of whichever finishes first propagates; the model takes the
    first leg's. *)
Definition gather2 {A B} (ra : res A) (rb : res B) : res (A * B) :=
  match ra, rb with
  | Ok a, Ok b => Ok (a, b)
  | Raise e, _ => Raise e
  | _, Raise e => Raise e
  end.

Definition with_heap (s : ExecState) (h : gmap loc ArbPosition.t) (a : gmap string loc)
  (n : loc) : ExecState :=
  {| clients := clients s; active_positions := a; heap := h; next_loc := n |}.

(** The two market orders of [open_position], at [size_usd / 100] each. *)
Definition long_leg_order (long_exchange symbol : string) (size_usd : Q) : Order.t :=
  Order.new long_exchange symbol LONG (size_usd / 100) MARKET.
Definition short_leg_order (short_exchange symbol : string) (size_usd : Q) : Order.t :=
  Order.new short_exchange symbol SHORT (size_usd / 100) MARKET.

(** [ArbExecutor.open_position]; [now] is [time.time()]. *)
Definition open_position (long_exchange short_exchange symbol base_asset : string)
  (size_usd funding_rate now : Q) : M loc :=
  s <- m_get ;;
  long_client <- m_lift (dict_get (clients s) long_exchange) ;;
  short_client <- m_lift (dict_get (clients s) short_exchange) ;;
  let size := size_usd / 100 in
  let long_order := Order.new long_exchange symbol LONG size MARKET in
  let short_order := Order.new short_exchange symbol SHORT size MARKET in
  results <- m_lift (gather2 (long_client long_order) (short_client short_order)) ;;
  let '(long_result, short_result) := results in
  let pos_id := ("arb_" +:+ pretty (Qfloor now))%string in
  let arb_pos := ArbPosition.mk pos_id
      (Position.mk long_exchange symbol LONG (Order.filled_size long_result)
                   (Order.fill_price long_result) now 0 0)
      (Position.mk short_exchange symbol SHORT (Order.filled_size short_result)
                   (Order.fill_price short_result) now 0 0)
      base_asset now funding_rate 0 0 "open" in
  s' <- m_get ;;
  let l := next_loc s' in
  _ <- m_put (with_heap s' (<[l := arb_pos]> (heap s'))
                (<[pos_id := l]> (active_positions s')) (Pos.succ l)) ;;
  m_ret l.

(** [ArbExecutor.close_position] *)
Definition close_position (pos_id : string) : M Summary.t :=
  s <- m_get ;;
  match active_positions s !! pos_id with
  | None => m_raise (PyExc "ValueError" ("Position " +:+ pos_id +:+ " not found"))
  | Some l =>
    match heap s !! l with
    | None => m_raise (PyExc "KeyError" pos_id) (* unreachable: see [heap_ok] *)
    | Some pos =>
      long_client <- m_lift (dict_get (clients s) (Position.exchange (ArbPosition.long_leg pos))) ;;
      short_client <- m_lift (dict_get (clients s) (Position.exchange (ArbPosition.short_leg pos))) ;;
      let close_long := Order.new (Position.exchange (ArbPosition.long_leg pos))
                          (Position.symbol (ArbPosition.long_leg pos)) SHORT
                          (Position.size (ArbPosition.long_leg pos)) MARKET in
      let close_short := Order.new (Position.exchange (ArbPosition.short_leg pos))
                           (Position.symbol (ArbPosition.short_leg pos)) LONG
                           (Position.size (ArbPosition.short_leg pos)) MARKET in
      _ <- m_lift (gather2 (long_client close_long) (short_client close_short)) ;;
      s' <- m_get ;;
      _ <- m_put (with_heap s' (<[l := ArbPosition.set_status pos "closed"]> (heap s'))
                    (delete pos_id (active_positions s')) (next_loc s')) ;;
      m_ret (Summary.mk pos_id (ArbPosition.total_funding_collected pos)
                        (ArbPosition.total_pnl pos))
    end
  end.

(** Every id of [active_positions] refers to an allocated object, and
    fresh references are above every allocated one. *)
Definition heap_ok (s : ExecState) : Prop :=
  (forall k l, active_positions s !! k = Some l -> is_Some (heap s !! l)) /\
  (forall l, is_Some (heap s !! l) -> (l < next_loc s)%positive).

(* ------------------------------------------------------------------ *)
(** ** Concrete executors *)

(** A client whose order placement fails (e.g. a timed-out request). *)
Definition fault_client : Client := fun _ =>
  Raise (PyExc "ConnectionError" "timeout").

(** A client that fills half of every order. *)
Definition half_fill_client : Client := fun o =>
  Ok (Order.mk (Order.exchange o) (Order.symbol o) (Order.side o) (Order.size o)
         (Order.order_type o) (Order.price o) (Some "partial"%string)
         "partially_filled" (Some 100) (Order.size o / 2)).

(** [ArbExecutor(clients)]: no active position yet. *)
Definition executor_init (cs : gmap string Client) : ExecState :=
  {| clients := cs; active_positions := ∅; heap := ∅; next_loc := 1%positive |}.

Definition sim_executor : ExecState :=
  executor_init (<["binance" := sim_place_order 0]> (<["bybit" := sim_place_order 0]> ∅)).

Definition short_fault_executor : ExecState :=
  executor_init (<["binance" := sim_place_order 0]> (<["bybit" := fault_client]> ∅)).

Definition short_half_executor : ExecState :=
  executor_init (<["binance" := sim_place_order 0]> (<["bybit" := half_fill_client]> ∅)).

(** The test of [test_executor]: one position on SOLUSDT, $1000, at time 0. *)
Definition open_sol (s : ExecState) : res loc * ExecState :=
  open_position "binance" "bybit" "SOLUSDT" "SOL" 1000 (-2 # 1000) 0 s.

(* ------------------------------------------------------------------ *)
(** ** The simulated exchange's bookkeeping ([SimulatedClient]) *)

(** A [SimulatedClient]: its exchange, balance, positions by symbol and the
    orders it has filled. *)
Record SimClient := {
  sc_exchange : string;
  balance : Q;
  positions : gmap string Position.t;
  orders : list Order.t
}.

(** [SimulatedClient(exchange)], with [initial_balance = 10000]. *)
Definition SimulatedClient_new (exchange : string) : SimClient :=
  {| sc_exchange := exchange; balance := 10000; positions := ∅; orders := [] |}.

(** [pos.side == order.side] on the [Side] enum. *)
Definition side_eqb (a b : Side) : bool :=
  match a, b with
  | LONG, LONG | SHORT, SHORT => true
  | _, _ => false
  end.

(** The client after [place_order] updated its positions and appended the
    order to [self.orders]. *)
Definition with_positions (c : SimClient) (ps : gmap string Position.t) (o : Order.t)
  : SimClient :=
  {| sc_exchange := sc_exchange c; balance := balance c; positions := ps;
     orders := orders c ++ [o] |}.

(** A position with a new entry price and size (the in-place assignments to
    [pos.entry_price] and [pos.size]). *)
Definition pos_resize (p : Position.t) (entry_price : option Q) (size : Q) : Position.t :=
  Position.mk (Position.exchange p) (Position.symbol p) (Position.side p) size entry_price
    (Position.entry_time p) (Position.pnl p) (Position.funding_collected p).

(** [SimulatedClient.place_order]; [t] is [time.time()] (non-negative, so
    [int(t*1000)] is its floor). The order is filled as [sim_place_order]
    fills it; then the position on its symbol grows (size-weighted entry
    price), shrinks, closes or opens. When the average's division raises,
    nothing of the client has been assigned yet. *)
Definition SimulatedClient_place_order (t : Q) (c : SimClient) (o : Order.t)
  : res (Order.t * SimClient) :=
  match sim_place_order (Qfloor (t * 1000)) o with
  | Raise e => Raise e
  | Ok order =>
    let sym := Order.symbol order in
    match positions c !! sym with
    | Some pos =>
        if side_eqb (Position.side pos) (Order.side order) then
          let new_size := Position.size pos + Order.filled_size order in
          match Position.entry_price pos, Order.fill_price order with
          | Some ep, Some fp =>
              match pydiv (ep * Position.size pos + fp * Order.filled_size order) new_size with
              | Raise e => Raise e
              | Ok avg =>
                  Ok (order, with_positions c
                               (<[sym := pos_resize pos (Some avg) new_size]> (positions c)) order)
              end
          | _, _ => Raise (PyExc "TypeError" "unsupported operand type(s) for *")
          end
        else if Qle_bool (Position.size pos) (Order.filled_size order) then
          Ok (order, with_positions c (delete sym (positions c)) order)
        else
          Ok (order, with_positions c
                       (<[sym := pos_resize pos (Position.entry_price pos)
                                   (Position.size pos - Order.filled_size order)]> (positions c))
                       order)
    | None =>
        Ok (order, with_positions c
                     (<[sym := Position.mk (sc_exchange c) sym (Order.side order)
                                 (Order.filled_size order) (Order.fill_price order) t 0 0]>
                        (positions c)) order)
    end
  end.

(** [SimulatedClient.get_position] *)
Definition get_position (c : SimClient) (symbol : string) : option Position.t :=
  positions c !! symbol.

(** [SimulatedClient.get_balance] *)
Definition get_balance (c : SimClient) : gmap string Q := {[ "USDT"%string := balance c ]}.

(** The client states reachable from [c0] by successful [place_order]
    calls, at any times and with any orders. *)
Inductive sim_reachable (c0 : SimClient) : SimClient -> Prop :=
  | sim_reach_refl : sim_reachable c0 c0
  | sim_reach_step c t o r c' :
      sim_reachable c0 c -> SimulatedClient_place_order t c o = Ok (r, c') ->
      sim_reachable c0 c'.

(* ------------------------------------------------------------------ *)
(** ** The monitor's scan ([src/monitor.py]) *)

Definition ALERT_FUNDING_THRESHOLD : Q := -15 # 10000.
Definition MIN_NET_YIELD_APR : Q := 30.
Definition ROUND_TRIP_COST : Q := 24 # 10000.
Definition BORROW_8H : Q := 274 # 1000000.

(** The set [WHITELIST]; membership is tested with [py_in]. *)
Definition WHITELIST : list string :=
  ["BTC"; "ETH"; "SOL"; "DOGE"; "XRP"; "ADA"; "AVAX"; "LINK";
   "DOT"; "MATIC"; "UNI"; "ATOM"; "LTC"; "BCH"; "APT"; "ARB";
   "OP"; "INJ"; "SUI"; "SEI"; "TIA"; "JUP"; "PYTH"; "JTO";
   "WIF"; "BONK"; "PEPE"; "SHIB"; "FIL"; "NEAR"; "RENDER"]%string.

(** [calculate_net_yield] *)
Definition calculate_net_yield (funding_rate : Q) : Q :=
  if Qle_bool 0 funding_rate then 0
  else
    let funding_received := - funding_rate in
    let amortized_cost := ROUND_TRIP_COST / 3 in
    let net_8h := funding_received - BORROW_8H - amortized_cost in
    net_8h * 3 * 365 * 100.

Module MonOpp.
(** [{**r, "base": base, "annualized": ..., "net_yield_apr": net_yield}] *)
Record t := mk {
  rate_data : RateData.t;
  base : string;
  annualized : Q;
  net_yield_apr : Q
}.
End MonOpp.

(** The filter loop of [find_opportunities]. *)
Fixpoint find_opportunities_loop (rates : list RateData.t) : list MonOpp.t :=
  match rates with
  | [] => []
  | r :: rest =>
      let base := extract_base (RateData.symbol r) in
      if negb (py_in base WHITELIST) then find_opportunities_loop rest
      else if Qle_bool ALERT_FUNDING_THRESHOLD (RateData.rate r) then find_opportunities_loop rest
      else
        let net_yield := calculate_net_yield (RateData.rate r) in
        if Qle_bool MIN_NET_YIELD_APR net_yield then
          MonOpp.mk r base (RateData.rate r * 3 * 365 * 100) net_yield
            :: find_opportunities_loop rest
        else find_opportunities_loop rest
  end.

(** [sorted(opps, key=lambda x: x["net_yield_apr"], reverse=True)], a
    stable sort, as an insertion sort. *)
Fixpoint insert_by_yield (x : MonOpp.t) (l : list MonOpp.t) : list MonOpp.t :=
  match l with
  | [] => [x]
  | y :: ys => if Qle_bool (MonOpp.net_yield_apr y) (MonOpp.net_yield_apr x)
               then x :: y :: ys else y :: insert_by_yield x ys
  end.

Fixpoint sort_by_yield (l : list MonOpp.t) : list MonOpp.t :=
  match l with
  | [] => []
  | x :: xs => insert_by_yield x (sort_by_yield xs)
  end.

(** [find_opportunities] *)
Definition find_opportunities (rates : list RateData.t) : list MonOpp.t :=
  sort_by_yield (find_opportunities_loop rates).

(** The merge loop of [fetch_all_funding]: [asyncio.gather(...,
    return_exceptions=True)] gives each venue's list or its exception, and
    only the lists are kept, in venue order. *)
Fixpoint merge_results (results : list (res (list RateData.t))) : list RateData.t :=
  match results with
  | [] => []
  | Ok l :: rest => l ++ merge_results rest
  | Raise _ :: rest => merge_results rest
  end.

(** [min(whitelisted, key=lambda x: x["rate"])]: the first element of least
    rate. *)
Fixpoint min_by_rate (best : RateData.t) (l : list RateData.t) : RateData.t :=
  match l with
  | [] => best
  | r :: rest => min_by_rate (if qltb (RateData.rate r) (RateData.rate best) then r else best) rest
  end.

(** What [run_scan] reports once the rates are fetched (the snapshot file
    is written without error): the opportunities, or the best whitelisted
    negative rate, or that there is none. *)
Inductive ScanOutcome :=
  | Found (opps : list MonOpp.t)
  | NoOppsBest (best : RateData.t)
  | NoNegative.

Definition run_scan_outcome (rates : list RateData.t) : ScanOutcome :=
  match find_opportunities rates with
  | _ :: _ => Found (find_opportunities rates)
  | [] =>
      let whitelisted :=
        List.filter (fun r => py_in (extract_base (RateData.symbol r)) WHITELIST
                              && qltb (RateData.rate r) 0) rates in
      match whitelisted with
      | [] => NoNegative
      | w :: ws => NoOppsBest (min_by_rate w ws)
      end
  end.

(** The status column of [main.cmd_analyze]: ["ACTIONABLE"] if
    [net > 30], else ["costs > yield"] if [rate < 0], else ["neutral"]. *)
Inductive AnalyzeStatus := Actionable | CostsExceedYield | Neutral.

Definition analyze_status (rate : Q) : AnalyzeStatus :=
  let net := calculate_net_yield rate in
  if qltb 30 net then Actionable
  else if qltb rate 0 then CostsExceedYield
  else Neutral.

(* ------------------------------------------------------------------ *)
(** ** Profitability analysis ([src/deep_analysis.py]) *)

(** [calculate_break_even(cost_per_trade, hold_periods)]; the integer
    [hold_periods] makes [1000 * hold_periods] an integer and the last
    division a float division. *)
Definition calculate_break_even (cost_per_trade : Q) (hold_periods : Z) : res Q :=
  let entry := 80 # 100 in
  let exit := 40 # 100 in
  let slippage := 50 # 100 in
  let borrow := (274 # 1000) * inject_Z hold_periods in
  let total_cost := entry + exit + slippage + borrow in
  pydiv (- total_cost) (inject_Z (1000 * hold_periods)).

Module DTrade.
(** A trade of [simulate_realistic_strategy]. *)
Record t := mk {
  periods : nat;
  hours : nat;
  funding : Q;
  costs : Q;
  pnl : Q
}.
End DTrade.

(** The loop state: [in_position], [entry_idx] and [trades]. *)
Record DState := {
  in_position : bool;
  d_entry_idx : nat;
  d_trades : list DTrade.t
}.

Definition dstate_init : DState :=
  {| in_position := false; d_entry_idx := 0; d_trades := [] |}.

Section Strategy.

(** The rates [rates[j][0]] and the strategy's two thresholds. *)
Variable rates : list Q.
Variables entry_thresh exit_thresh : Q.

(** [sum(-rates[j][0] * 1000 for j in range(a, b))] *)
Definition strat_funding (a b : nat) : Q :=
  fold_left (fun acc j => acc + - nth j rates 0 * 1000) (seq a (b - a)) 0.

(** The body of [for i, (rate, ts) in enumerate(rates)], with
    [entry_cost = 1.0], [exit_cost = 0.4], [slippage = 0.5] and
    [borrow_8h = 0.274]. *)
Definition strat_step (st : DState) (i : nat) (rate : Q) : DState :=
  if negb (in_position st) then
    if qltb rate entry_thresh then
      {| in_position := true; d_entry_idx := i; d_trades := d_trades st |}
    else st
  else if qltb exit_thresh rate then
    let periods := (i - d_entry_idx st)%nat in
    let funding := strat_funding (d_entry_idx st) (S i) in
    let costs := 1 + (4 # 10) + (5 # 10) + (274 # 1000) * inject_Z (Z.of_nat periods) in
    {| in_position := false; d_entry_idx := d_entry_idx st;
       d_trades := d_trades st ++ [DTrade.mk periods (periods * 8) funding costs (funding - costs)] |}
  else st.

Fixpoint strat_loop (rs : list Q) (i : nat) (st : DState) : DState :=
  match rs with
  | [] => st
  | r :: rest => strat_loop rest (S i) (strat_step st i r)
  end.

End Strategy.

Definition strategy_trades (rates : list Q) (entry_thresh exit_thresh : Q) : list DTrade.t :=
  d_trades (strat_loop rates entry_thresh exit_thresh rates 0 dstate_init).

(** Python's [sum(f(x) for x in l)], from [0], left to right. *)
Definition pysum {A} (f : A -> Q) (l : list A) : Q := fold_left (fun acc x => acc + f x) l 0.

Record StratResult := {
  sr_entry_threshold : Q;
  sr_exit_threshold : Q;
  sr_total_trades : nat;
  trades_per_month : Q;
  sr_total_pnl : Q;
  sr_annualized_return : Q;
  sr_win_rate : Q;
  avg_pnl_per_trade : Q;
  avg_hold_hours : Q;
  sr_total_costs : Q;
  sr_total_funding : Q
}.

(** One strategy's entry of [results]; the dictionary's values are
    evaluated in order, so [trades_per_month] raises before the guarded
    ones. *)
Definition strategy_result (rates : list Q) (entry_thresh exit_thresh : Q) : res StratResult :=
  let trades := strategy_trades rates entry_thresh exit_thresh in
  let total_pnl := pysum DTrade.pnl trades in
  let days := qlen rates / 3 in
  match pydiv (qlen trades) (days / 30) with
  | Raise e => Raise e
  | Ok per_month =>
      Ok {| sr_entry_threshold := entry_thresh * 100;
            sr_exit_threshold := exit_thresh * 100;
            sr_total_trades := length trades;
            trades_per_month := per_month;
            sr_total_pnl := total_pnl;
            sr_annualized_return :=
              if qltb 0 days then total_pnl / 1000 * (365 / days) * 100 else 0;
            sr_win_rate :=
              if trades then 0
              else qlen (List.filter (fun t => qltb 0 (DTrade.pnl t)) trades) / qlen trades * 100;
            avg_pnl_per_trade := if trades then 0 else total_pnl / qlen trades;
            avg_hold_hours :=
              if trades then 0
              else pysum (fun t => inject_Z (Z.of_nat (DTrade.hours t))) trades / qlen trades;
            sr_total_costs := pysum DTrade.costs trades;
            sr_total_funding := pysum DTrade.funding trades |}
  end.

(** The three strategies: name, entry threshold, exit threshold. *)
Definition strategies : list (string * Q * Q) :=
  [("conservative", -15 # 10000, -3 # 10000);
   ("moderate", -10 # 10000, -2 # 10000);
   ("aggressive", -5 # 10000, 0)]%string.

Fixpoint run_strategies (rates : list Q) (ss : list (string * Q * Q))
  : res (list (string * StratResult)) :=
  match ss with
  | [] => Ok []
  | (name, et, xt) :: rest =>
      match strategy_result rates et xt with
      | Raise e => Raise e
      | Ok r =>
          match run_strategies rates rest with
          | Raise e => Raise e
          | Ok rs => Ok ((name, r) :: rs)
          end
      end
  end.

(** [simulate_realistic_strategy]: the [results] dictionary in insertion
    order. *)
Definition simulate_realistic_strategy (data : list Row.t) : res (list (string * StratResult)) :=
  run_strategies (map Row.fundingRate data) strategies.

(* ------------------------------------------------------------------ *)
(** ** The scorer's summary ([OpportunityScorer.main]) *)

(** On a non-empty scored list: the best opportunity [opportunities[0]]
    and [avg_yield]. *)
Definition scorer_summary (opportunities : list Opportunity.t) : option (Opportunity.t * Q) :=
  match opportunities with
  | [] => None
  | best :: _ =>
      Some (best, pysum Opportunity.net_yield_annualized opportunities / qlen opportunities)
  end.

(* ------------------------------------------------------------------ *)
(** ** Sequences of executor calls *)

(** A call on the executor; a caller catches what it raises and goes on. *)
Inductive Cmd :=
  | OpenCmd (long_exchange short_exchange symbol base_asset : string)
            (size_usd funding_rate now : Q)
  | CloseCmd (pos_id : string).

Fixpoint run_cmds (cs : list Cmd) (s : ExecState) : ExecState :=
  match cs with
  | [] => s
  | OpenCmd le se sym base su fr now :: rest =>
      run_cmds rest (snd (open_position le se sym base su fr now s))
  | CloseCmd pid :: rest => run_cmds rest (snd (close_position pid s))
  end.

(** Every id of [active_positions] refers to an open position carrying that
    id. *)
Definition active_ok (s : ExecState) : Prop :=
  forall k l, active_positions s !! k = Some l ->
    exists p, heap s !! l = Some p /\ ArbPosition.id p = k /\
              ArbPosition.status p = "open"%string.


(* ------------------------------------------------------------------ *)
(** ** Invariants and orders used by the proofs *)

(** The opportunity record [find_opportunities] builds from a rate. *)
Definition mon_opp_of (r : RateData.t) : MonOpp.t :=
  MonOpp.mk r (extract_base (RateData.symbol r)) (RateData.rate r * 3 * 365 * 100)
    (calculate_net_yield (RateData.rate r)).
(** The filter of [find_opportunities]: a whitelisted base asset and a rate
    below [ALERT_FUNDING_THRESHOLD]. *)
Definition alert_rate (r : RateData.t) : bool :=
  py_in (extract_base (RateData.symbol r)) WHITELIST
  && qltb (RateData.rate r) ALERT_FUNDING_THRESHOLD.

(** A trade of the strategy loop over [rates], entered at index [e] and
    exited at index [x] before [k]. *)
Definition strat_trade_ok (rates : list Q) (et xt : Q) (k : nat) (t : DTrade.t) : Prop :=
  exists e x, (e < x < k)%nat /\
    DTrade.periods t = (x - e)%nat /\ DTrade.hours t = (DTrade.periods t * 8)%nat /\
    DTrade.funding t = strat_funding rates e (S x) /\
    DTrade.costs t = 1 + (4 # 10) + (5 # 10) + (274 # 1000) * inject_Z (Z.of_nat (DTrade.periods t)) /\
    DTrade.pnl t = DTrade.funding t - DTrade.costs t /\
    nth e rates 0 < et /\ xt < nth x rates 0.

Definition strat_inv (rates : list Q) (et xt : Q) (st : DState) (k : nat) : Prop :=
  (in_position st = true -> (d_entry_idx st < k)%nat /\ nth (d_entry_idx st) rates 0 < et) /\
  (forall t, In t (d_trades st) -> strat_trade_ok rates et xt k t) /\
  (2 * length (d_trades st) + (if in_position st then 1 else 0) <= k)%nat.

(** Positions are keyed by their symbol, belong to the client's exchange and
    carry an entry price. *)
Definition sim_client_ok (c : SimClient) : Prop :=
  forall sym p, positions c !! sym = Some p ->
    Position.symbol p = sym /\ Position.exchange p = sc_exchange c /\
    is_Some (Position.entry_price p).


(** The order of the monitor's list: non-increasing net yield. *)
Definition yield_ge (a b : MonOpp.t) : Prop := MonOpp.net_yield_apr b <= MonOpp.net_yield_apr a.

(** The order of the sorted frame: non-decreasing funding time. *)
Definition time_le (a b : Row.t) : Prop := (Row.fundingTime a <= Row.fundingTime b)%Z.

(** A completed trade of the backtest loop after [k] iterations: entered
    at an index [e] below the entry threshold, exited at a later index [x]
    above the exit threshold, with the trade record's fields as the loop
    computes them. *)
Definition bt_trade_ok (config : BacktestConfig) (df : list Row.t) (k : nat) (t : Trade.t)
  : Prop :=
  exists e x, (e < x < k)%nat /\
    Trade.periods t = (x - e)%nat /\
    Trade.entry_time t = time_at df e /\ Trade.exit_time t = time_at df x /\
    Trade.avg_funding t = rate_at df e /\
    rate_at df e < entry_threshold config /\ exit_threshold config < rate_at df x /\
    Trade.funding_collected t = funding_sum config df e (S x) /\
    Trade.costs t = (entry_cost config + exit_cost config + slippage config) * position_size config
                    + borrow_rate_8h config * position_size config
                      * inject_Z (Z.of_nat (Trade.periods t)) /\
    Trade.pnl t = Trade.funding_collected t - Trade.costs t /\
    Trade.pnl_pct t = np_mul (np_div (Trade.pnl t) (position_size config)) 100.

(** The P&L and cost bookkeeping of the loop after [k] iterations. *)
Definition bt_inv (config : BacktestConfig) (df : list Row.t) (s : SimState) (k : nat) : Prop :=
  (position_open s = true ->
     (entry_idx s < k)%nat /\ entry_rate s = rate_at df (entry_idx s) /\
     rate_at df (entry_idx s) < entry_threshold config) /\
  (forall t, In t (trades s) -> bt_trade_ok config df k t) /\
  total_pnl s == qsum Trade.pnl (trades s) /\
  total_costs s == qsum Trade.costs (trades s)
    + (if position_open s
       then (entry_cost config + slippage config) * position_size config
            + borrow_rate_8h config * position_size config
              * inject_Z (Z.of_nat (k - 1 - entry_idx s))
       else 0) /\
  (2 * length (trades s) + (if position_open s then 1 else 0) <= k)%nat.

(* ------------------------------------------------------------------ *)
(** ** Concrete inputs of the simulated exchange and the executor *)

Definition sim_sol_buy : Order.t := Order.new "binance" "SOLUSDT" LONG 10 MARKET.
Definition sim_sol_sell (size : Q) : Order.t := Order.new "binance" "SOLUSDT" SHORT size MARKET.

(** A simulated Binance client holding a long SOLUSDT position of size 10
    entered at 100. *)
Definition sim_long_position : Position.t :=
  Position.mk "binance" "SOLUSDT" LONG 10 (Some 100) 0 0 0.
Definition sim_long_client : SimClient :=
  {| sc_exchange := "binance"; balance := 10000;
     positions := {[ "SOLUSDT"%string := sim_long_position ]}; orders := [] |}.

(** The client after one buy of 10 SOLUSDT at time 0. *)
Definition sim_after_buy : SimClient :=
  match SimulatedClient_place_order 0 (SimulatedClient_new "binance") sim_sol_buy with
  | Ok (_, c) => c
  | Raise _ => SimulatedClient_new "binance"
  end.

(** A second position, on ETHUSDT, opened half a second after [open_sol]. *)
Definition open_eth_half_second (s : ExecState) : res loc * ExecState :=
  open_position "binance" "bybit" "ETHUSDT" "ETH" 500 (-1 # 1000) (1 # 2) s.

(* ================================================================== *)
(** * Proofs *)

(* ------------------------------------------------------------------ *)
(** ** Suffix stripping *)

Section SuffixProofs.
Local Open Scope nat_scope.

Lemma endswith_true (s suf : string) :
  PyStr.endswith s suf = true ->
  PyStr.len suf <= PyStr.len s /\
  skipn (PyStr.len s - PyStr.len suf) (list_ascii_of_string s) = list_ascii_of_string suf.
Proof.
  unfold PyStr.endswith, PyStr.len. intros H.
  apply andb_true_iff in H as [H1 H2].
  apply Nat.leb_le in H1. apply bool_decide_eq_true in H2. auto.
Qed.

(** Two suffixes of one string: the shorter is a suffix of the longer. *)
Lemma endswith_nested (s a b : string) :
  PyStr.endswith s a = true -> PyStr.endswith s b = true ->
  PyStr.len a <= PyStr.len b -> PyStr.endswith b a = true.
Proof.
  intros Ha Hb Hab.
  apply endswith_true in Ha as [Ha1 Ha2]. apply endswith_true in Hb as [Hb1 Hb2].
  unfold PyStr.endswith. fold (PyStr.len b) (PyStr.len a).
  apply andb_true_iff. split; [apply Nat.leb_le; lia|].
  apply bool_decide_eq_true.
  rewrite <- Hb2, skipn_skipn.
  replace (PyStr.len b - PyStr.len a + (PyStr.len s - PyStr.len b))%nat
    with (PyStr.len s - PyStr.len a)%nat by lia.
  exact Ha2.
Qed.

(** No suffix of the list ends with another one of the list. *)
Lemma suffixes_unnested (a b : string) :
  In a suffixes -> In b suffixes -> PyStr.endswith b a = true -> a = b.
Proof.
  unfold suffixes; simpl.
  intros Ha Hb.
  repeat (destruct Ha as [<- | Ha]); try contradiction;
  repeat (destruct Hb as [<- | Hb]); try contradiction;
  vm_compute; congruence.
Qed.

Lemma strip_first_cases (sufs : list string) (s : string) :
  ((forall a, In a sufs -> PyStr.endswith s a = false) /\ strip_first sufs s = s) \/
  (exists a, In a sufs /\ PyStr.endswith s a = true /\
             strip_first sufs s = PyStr.drop_suffix s a).
Proof.
  induction sufs as [|x xs IH]; simpl.
  - left. split; [intros a []|reflexivity].
  - destruct (PyStr.endswith s x) eqn:E.
    + right. exists x. auto.
    + destruct IH as [[Hn Hs] | (a & Ha & He & Hs)].
      * left. split; [|exact Hs]. intros a [<- | Ha]; auto.
      * right. exists a. auto.
Qed.

Lemma suffixes_match_unique (s a b : string) :
  In a suffixes -> In b suffixes ->
  PyStr.endswith s a = true -> PyStr.endswith s b = true -> a = b.
Proof.
  intros Ha Hb Ea Eb.
  destruct (Nat.le_ge_cases (PyStr.len a) (PyStr.len b)) as [Hl | Hl].
  - apply (suffixes_unnested a b Ha Hb). exact (endswith_nested s a b Ea Eb Hl).
  - symmetry. apply (suffixes_unnested b a Hb Ha). exact (endswith_nested s b a Eb Ea Hl).
Qed.

(** C8: [extract_base_asset] strips the first suffix of the ordered list
    [USDT, USD, PERP, -USDT-SWAP, -USD-SWAP] that the symbol ends with
    (and returns the symbol when none does); that suffix is the only, hence
    the longest, matching suffix of the list, so a shorter suffix never
    wins over a longer one; [monitor.extract_base] agrees with it, and
    ["BTC-USDT-SWAP"] gives ["BTC"]. *)
Theorem extract_base_asset_longest_suffix (symbol : string) :
  extract_base symbol = extract_base_asset symbol /\
  extract_base_asset "BTC-USDT-SWAP" = "BTC"%string /\
  ( ((forall suf, In suf suffixes -> PyStr.endswith symbol suf = false) /\
     extract_base_asset symbol = symbol) \/
    (exists suf, In suf suffixes /\ PyStr.endswith symbol suf = true /\
       (forall suf', In suf' suffixes -> PyStr.endswith symbol suf' = true ->
                     suf' = suf /\ PyStr.len suf' <= PyStr.len suf) /\
       extract_base_asset symbol = PyStr.drop_suffix symbol suf)).
Proof.
  split; [reflexivity|]. split; [vm_compute; reflexivity|].
  destruct (strip_first_cases suffixes symbol) as [H | (a & Ha & Ea & Hs)].
  - left. exact H.
  - right. exists a. split; [exact Ha|]. split; [exact Ea|]. split; [|exact Hs].
    intros b Hb Eb. pose proof (suffixes_match_unique symbol b a Hb Ha Eb Ea) as ->.
    split; [reflexivity | lia].
Qed.

End SuffixProofs.

(* ------------------------------------------------------------------ *)
(** ** Scoring *)

Lemma Qle_bool_false_lt (a b : Q) : b < a -> Qle_bool a b = false.
Proof.
  intros H. destruct (Qle_bool a b) eqn:E; [|reflexivity].
  apply Qle_bool_iff in E. exfalso. apply (Qlt_not_le b a H E).
Qed.

Lemma calculate_opportunity_passes (config : Config) (now : string) (rd : RateData.t) :
  RateData.rate rd < 0 ->
  is_whitelisted config (RateData.symbol rd) = true ->
  RateData.rate rd <= min_funding_rate (trading config) ->
  calculate_opportunity config now rd =
    let '(maker_fee, taker_fee) := get_fees config (RateData.exchange rd) in
    let r := RateData.rate rd in
    let sym := RateData.symbol rd in
    let ec := 2 * taker_fee in
    let xc := 2 * maker_fee in
    let sc := slippage_estimate (costs config) * 2 in
    let bc := default_borrow_apr (costs config) / (3 * 365) in
    let ny := - r - bc - (ec + xc + sc) / 3 in
    Some (Opportunity.mk (RateData.exchange rd) sym (extract_base_asset sym) r
            (r * 3 * 365 * 100) ec xc sc bc ny (ny * 3 * 365 * 100)
            (if py_in (extract_base_asset sym) major_assets then 9 # 10 else 1 # 2) now).
Proof.
  intros Hneg Hw Hmin. unfold calculate_opportunity.
  rewrite (Qle_bool_false_lt 0 (RateData.rate rd) Hneg), Hw.
  apply Qle_bool_iff in Hmin. rewrite Hmin. simpl.
  destruct (get_fees config (RateData.exchange rd)). reflexivity.
Qed.

(** C3: an observation with rate [r < 0] that passes the whitelist and
    the minimum-funding-rate filters yields an opportunity with
    [entry_cost = 2 * taker], [exit_cost = 2 * maker],
    [slippage_cost = 2 * slippage_estimate],
    [borrow_cost_8h = default_borrow_apr / (3 * 365)],
    [net_yield_8h = -r - borrow_cost_8h - (entry + exit + slippage) / 3] and
    [net_yield_annualized = net_yield_8h * 3 * 365 * 100]; the annualized
    yield is the same for every configuration with the same cost model
    (and passing filters) and every timestamp. *)
Theorem calculate_opportunity_net_yield (config : Config) (now : string) (rd : RateData.t) :
  RateData.rate rd < 0 ->
  is_whitelisted config (RateData.symbol rd) = true ->
  RateData.rate rd <= min_funding_rate (trading config) ->
  exists opp, calculate_opportunity config now rd = Some opp /\
    Opportunity.entry_cost opp == 2 * snd (get_fees config (RateData.exchange rd)) /\
    Opportunity.exit_cost opp == 2 * fst (get_fees config (RateData.exchange rd)) /\
    Opportunity.slippage_cost opp == 2 * slippage_estimate (costs config) /\
    Opportunity.borrow_cost_8h opp == default_borrow_apr (costs config) / (3 * 365) /\
    Opportunity.net_yield_8h opp ==
      - RateData.rate rd - Opportunity.borrow_cost_8h opp
      - (Opportunity.entry_cost opp + Opportunity.exit_cost opp
         + Opportunity.slippage_cost opp) / 3 /\
    Opportunity.net_yield_annualized opp == Opportunity.net_yield_8h opp * 3 * 365 * 100 /\
    (forall (config' : Config) (now' : string),
       costs config' = costs config ->
       is_whitelisted config' (RateData.symbol rd) = true ->
       RateData.rate rd <= min_funding_rate (trading config') ->
       exists opp', calculate_opportunity config' now' rd = Some opp' /\
         Opportunity.net_yield_annualized opp' = Opportunity.net_yield_annualized opp).
Proof.
  intros Hneg Hw Hmin.
  rewrite (calculate_opportunity_passes config now rd Hneg Hw Hmin).
  assert (Hf : forall config', costs config' = costs config ->
             get_fees config' (RateData.exchange rd) = get_fees config (RateData.exchange rd))
    by (intros config' Hc; unfold get_fees; rewrite Hc; reflexivity).
  destruct (get_fees config (RateData.exchange rd)) as [maker taker] eqn:Efees.
  eexists. split; [reflexivity|]. simpl.
  repeat split; try reflexivity.
  - apply Qmult_comm.
  - intros config' now' Hc Hw' Hmin'.
    rewrite (calculate_opportunity_passes config' now' rd Hneg Hw' Hmin').
    rewrite (Hf config' Hc), Hc. eexists. split; reflexivity.
Qed.


Lemma insert_desc_perm (x : Opportunity.t) (l : list Opportunity.t) :
  Permutation (insert_desc x l) (x :: l).
Proof.
  induction l as [|y ys IH]; simpl; [reflexivity|].
  destruct (Qle_bool (key y) (key x)); [reflexivity|].
  rewrite IH. apply perm_swap.
Qed.

Lemma sort_desc_perm (l : list Opportunity.t) : Permutation (sort_desc l) l.
Proof.
  induction l as [|x xs IH]; simpl; [reflexivity|].
  rewrite insert_desc_perm, IH. reflexivity.
Qed.

Lemma insert_desc_hdrel (x y : Opportunity.t) (l : list Opportunity.t) :
  HdRel yield_desc y l -> yield_desc y x -> HdRel yield_desc y (insert_desc x l).
Proof.
  intros Hl Hyx. destruct l as [|z zs]; simpl.
  - constructor. exact Hyx.
  - destruct (Qle_bool (key z) (key x)); constructor; [exact Hyx|].
    inversion Hl; assumption.
Qed.

Lemma insert_desc_sorted (x : Opportunity.t) (l : list Opportunity.t) :
  Sorted yield_desc l -> Sorted yield_desc (insert_desc x l).
Proof.
  induction l as [|y ys IH]; simpl; intros Hs.
  - repeat constructor.
  - destruct (Qle_bool (key y) (key x)) eqn:E.
    + constructor; [exact Hs|]. constructor. unfold yield_desc. apply Qle_bool_iff, E.
    + apply Sorted_inv in Hs as [Hys Hhd]. constructor; [exact (IH Hys)|].
      apply insert_desc_hdrel; [exact Hhd|]. unfold yield_desc.
      apply Qlt_le_weak, Qnot_le_lt. intros Hle. apply Qle_bool_iff in Hle. congruence.
Qed.

Lemma sort_desc_sorted (l : list Opportunity.t) : Sorted yield_desc (sort_desc l).
Proof.
  induction l as [|x xs IH]; simpl; [constructor|]. apply insert_desc_sorted, IH.
Qed.

(** Inserting never reorders two elements of equal key. *)
Lemma insert_desc_stable (q : Q) (x : Opportunity.t) (l : list Opportunity.t) :
  List.filter (key_is q) (insert_desc x l) = List.filter (key_is q) (x :: l).
Proof.
  induction l as [|y ys IH]; simpl; [reflexivity|].
  destruct (Qle_bool (key y) (key x)) eqn:E; [reflexivity|].
  simpl. rewrite IH. simpl.
  destruct (key_is q y) eqn:Ey, (key_is q x) eqn:Ex; try reflexivity.
  exfalso. unfold key_is in Ey, Ex. apply Qeq_bool_iff in Ey, Ex.
  assert (Hle : key y <= key x) by (rewrite Ey, Ex; apply Qle_refl).
  apply Qle_bool_iff in Hle. congruence.
Qed.

Lemma sort_desc_stable (q : Q) (l : list Opportunity.t) :
  List.filter (key_is q) (sort_desc l) = List.filter (key_is q) l.
Proof.
  induction l as [|x xs IH]; simpl; [reflexivity|].
  rewrite insert_desc_stable. simpl. rewrite IH. reflexivity.
Qed.

(** C4 (as the code has it): [score_all] returns the opportunities kept
    by [calculate_opportunity] and the [min_net_yield_pct] filter, sorted by
    non-increasing [net_yield_annualized]; opportunities of equal yield keep
    their input order (stable sort) and are not reordered by liquidity score
    or by (exchange, symbol). *)
Theorem score_all_sorted_stable (config : Config) (now : string) (rates : list RateData.t) :
  Permutation (score_all config now rates) (collect config now rates) /\
  Sorted yield_desc (score_all config now rates) /\
  (forall q, List.filter (key_is q) (score_all config now rates)
             = List.filter (key_is q) (collect config now rates)).
Proof.
  unfold score_all. split; [apply sort_desc_perm|]. split; [apply sort_desc_sorted|].
  intros q. apply sort_desc_stable.
Qed.

(** C4, counterexample: two opportunities of equal yield on Hyperliquid,
    ADA (liquidity 0.5) listed before BTC (liquidity 0.9), come out in input
    order, the lower liquidity score first. *)
Lemma score_all_tie_keeps_input_order :
  match score_all Config_default "2026-01-01T00:00:00"
          [RateData.mk "hyperliquid" "ADAUSDT" (-3 # 1000);
           RateData.mk "hyperliquid" "BTCUSDT" (-3 # 1000)] with
  | [o1; o2] =>
      Opportunity.symbol o1 = "ADAUSDT"%string /\ Opportunity.symbol o2 = "BTCUSDT"%string /\
      Opportunity.net_yield_annualized o1 == Opportunity.net_yield_annualized o2 /\
      Opportunity.liquidity_score o1 < Opportunity.liquidity_score o2
  | _ => False
  end.
Proof. vm_compute. repeat split; reflexivity. Qed.

(* ------------------------------------------------------------------ *)
(** ** Backtest lifecycle on a concrete series *)

Lemma Qeq_bool_nonzero (q : Q) : ~ q == 0 -> Qeq_bool q 0 = false.
Proof.
  intros H. destruct (Qeq_bool q 0) eqn:E; [|reflexivity].
  apply Qeq_bool_iff in E. contradiction.
Qed.

(** C5 (as the code has it): on the series [-0.002, -0.0018, -0.0002, 0.0]
    with thresholds [-0.0015] / [-0.0005] and any costs and position size,
    the position opens at index 0, accruing
    [(entry_cost + slippage) * position_size]; it stays open at index 1
    and closes at index 2, each open period accruing
    [-rate * position_size] of funding and [borrow_rate_8h * position_size]
    of cost; index 3 changes nothing; exactly one trade is recorded, with
    [periods = 2]. *)
Theorem lifecycle_one_trade (config : BacktestConfig) :
  entry_threshold config = -15 # 10000 ->
  exit_threshold config = -5 # 10000 ->
  let ps := position_size config in
  (exists s1, after config lifecycle_rows 1 = Ok s1 /\
     position_open s1 = true /\ entry_idx s1 = 0%nat /\ trades s1 = [] /\
     total_funding s1 == 0 /\
     total_costs s1 == (entry_cost config + slippage config) * ps /\
   exists s2, after config lifecycle_rows 2 = Ok s2 /\
     position_open s2 = true /\ entry_idx s2 = 0%nat /\ trades s2 = [] /\
     total_funding s2 == total_funding s1 + - rate_at lifecycle_rows 1 * ps /\
     total_costs s2 == total_costs s1 + borrow_rate_8h config * ps /\
   exists s3, after config lifecycle_rows 3 = Ok s3 /\
     position_open s3 = false /\ length (trades s3) = 1%nat /\
     map Trade.periods (trades s3) = [2%nat] /\
     map Trade.entry_time (trades s3) = [time_at lifecycle_rows 0] /\
     map Trade.exit_time (trades s3) = [time_at lifecycle_rows 2] /\
     total_funding s3 == total_funding s2 + - rate_at lifecycle_rows 2 * ps /\
     total_costs s3 == total_costs s2 + borrow_rate_8h config * ps
                       + exit_cost config * ps /\
     simulate config lifecycle_rows = Ok s3) /\
  (exists r, run_backtest lifecycle_rows config = Ok (Report r) /\
     total_trades r = 1%nat /\ map Trade.periods (report_trades r) = [2%nat]).
Proof.
  destruct config as [et xt ec xc sl br ps mp]; simpl; intros -> ->.
  split.
  - eexists. split; [reflexivity|]. simpl.
    split; [reflexivity|]. split; [reflexivity|]. split; [reflexivity|].
    split; [reflexivity|]. split; [ring|].
    eexists. split; [reflexivity|]. simpl.
    split; [reflexivity|]. split; [reflexivity|]. split; [reflexivity|].
    split; [reflexivity|]. split; [reflexivity|].
    eexists. split.
    + reflexivity.
    + simpl. repeat split; try reflexivity.
  - eexists. split; [reflexivity|]. split; reflexivity.
Qed.

(** C5, counterexample: with the default configuration the entry at
    index 0 adds [(entry_cost + slippage) * position_size = 2] to the
    costs, not [entry_cost + slippage = 0.002]. *)
Lemma lifecycle_entry_cost_scaled :
  match after BacktestConfig_default lifecycle_rows 1 with
  | Ok s1 =>
      position_open s1 = true /\ total_costs s1 == 2 /\
      ~ total_costs s1 == entry_cost BacktestConfig_default + slippage BacktestConfig_default
  | Raise _ => False
  end.
Proof. vm_compute. split; [reflexivity|]. split; [reflexivity|]. discriminate. Qed.

(* ------------------------------------------------------------------ *)
(** ** Backtest: general facts about the loop *)

Lemma insert_by_time_perm (r : Row.t) (l : list Row.t) :
  Permutation (insert_by_time r l) (r :: l).
Proof.
  induction l as [|y ys IH]; simpl; [reflexivity|].
  destruct (Z.leb (Row.fundingTime r) (Row.fundingTime y)); [reflexivity|].
  rewrite IH. apply perm_swap.
Qed.

Lemma sort_by_time_perm (l : list Row.t) : Permutation (sort_by_time l) l.
Proof.
  induction l as [|r rs IH]; simpl; [reflexivity|].
  rewrite insert_by_time_perm, IH. reflexivity.
Qed.

Lemma loop_app (config : BacktestConfig) (df a b : list Row.t) (i : nat) (s : SimState) :
  loop config df (a ++ b) i s =
  match loop config df a i s with
  | Ok s' => loop config df b (i + length a) s'
  | Raise e => Raise e
  end.
Proof.
  revert i s. induction a as [|r rs IH]; intros i s; simpl.
  - rewrite Nat.add_0_r. reflexivity.
  - destruct (step config df s i r) as [s1|e]; [|reflexivity].
    rewrite IH. replace (S i + length rs)%nat with (i + S (length rs))%nat by lia.
    reflexivity.
Qed.

(** With no rate below the entry threshold the loop never leaves the
    initial state. *)
Lemma loop_no_entry (config : BacktestConfig) (df rows : list Row.t) (i : nat) :
  Forall (fun r => entry_threshold config <= Row.fundingRate r) rows ->
  loop config df rows i sim_init = Ok sim_init.
Proof.
  intros H. revert i. induction H as [|r rs Hr Hrs IH]; intros i; simpl; [reflexivity|].
  unfold step at 1. simpl. unfold qltb.
  apply Qle_bool_iff in Hr. rewrite Hr. simpl. apply IH.
Qed.

(** C7 (as the code has it): for a non-empty series with no rate
    strictly below [entry_threshold] and a non-zero position size, no
    position is ever opened (every prefix of the loop leaves the initial
    state untouched), no trade is recorded, and [run_backtest] returns
    [pnl_per_trade = win_rate = avg_hold_periods = 0] without raising. *)
Theorem run_backtest_no_entry (funding_data : list Row.t) (config : BacktestConfig) :
  funding_data <> [] ->
  ~ position_size config == 0 ->
  Forall (fun r => entry_threshold config <= Row.fundingRate r) funding_data ->
  (forall k, after config (sort_by_time funding_data) k = Ok sim_init) /\
  exists r, run_backtest funding_data config = Ok (Report r) /\
    total_trades r = 0%nat /\ report_trades r = [] /\
    pnl_per_trade r = 0 /\ win_rate r = 0 /\ avg_hold_periods r = 0.
Proof.
  intros Hne Hps Hall.
  assert (Hsorted : Forall (fun r => entry_threshold config <= Row.fundingRate r)
                      (sort_by_time funding_data)).
  { apply List.Forall_forall. intros x Hx. rewrite List.Forall_forall in Hall. apply Hall.
    apply (Permutation_in x (sort_by_time_perm funding_data)), Hx. }
  split.
  - intros k. unfold after. apply loop_no_entry. apply (Forall_take _ k _ Hsorted).
  - destruct funding_data as [|first rest]; [contradiction|].
    unfold run_backtest, simulate. rewrite (loop_no_entry config _ _ 0 Hsorted).
    simpl trades. cbv iota beta zeta.
    destruct (Z.eqb _ 0%Z); simpl; unfold pydiv; rewrite ?(Qeq_bool_nonzero _ Hps);
      eexists; repeat split.
Qed.

(** C7, counterexample: with [position_size = 0] (and otherwise default
    costs) a series that never crosses the entry threshold makes
    [run_backtest] raise [ZeroDivisionError] in [annualized_return]. *)
Lemma run_backtest_zero_size_raises :
  run_backtest [Row.mk 0 0 (Some "BTCUSDT"%string)]
    {| entry_threshold := -15 # 10000; exit_threshold := -5 # 10000;
       entry_cost := 1 # 1000; exit_cost := 4 # 10000; slippage := 1 # 1000;
       borrow_rate_8h := 274 # 1000000; position_size := 0; bt_max_positions := 3 |}
  = Raise (PyExc "ZeroDivisionError" "float division by zero").
Proof. vm_compute. reflexivity. Qed.

(** The loop body, the loop and the simulation always return. *)
Lemma step_ok (config : BacktestConfig) (df : list Row.t) (s : SimState) (i : nat)
  (row : Row.t) : exists s1, step config df s i row = Ok s1.
Proof.
  unfold step. destruct (negb (position_open s)).
  - destruct (qltb _ _); eexists; reflexivity.
  - destruct (qltb _ _); eexists; reflexivity.
Qed.

Lemma loop_total (config : BacktestConfig) (df rows : list Row.t) :
  forall (i : nat) (s : SimState), exists st, loop config df rows i s = Ok st.
Proof.
  induction rows as [|row rest IH]; intros i s; simpl; [eexists; reflexivity|].
  destruct (step_ok config df s i row) as [s1 ->]. apply IH.
Qed.

Lemma simulate_total (config : BacktestConfig) (df : list Row.t) :
  exists st, simulate config df = Ok st.
Proof. apply loop_total. Qed.

(** A step that leaves the position open either kept an open position
    (same entry, trades and P&L) or opened it at this index. *)
Lemma step_open_cases (config : BacktestConfig) (df : list Row.t) (s s1 : SimState)
  (i : nat) (row : Row.t) :
  step config df s i row = Ok s1 -> position_open s1 = true ->
  (position_open s = true /\ entry_idx s1 = entry_idx s /\
   trades s1 = trades s /\ total_pnl s1 = total_pnl s) \/
  (position_open s = false /\ entry_idx s1 = i /\
   trades s1 = trades s /\ total_pnl s1 = total_pnl s).
Proof.
  unfold step. intros Hs Ho.
  destruct (position_open s) eqn:Eo; simpl in Hs.
  - destruct (qltb (exit_threshold config) (Row.fundingRate row)).
    + inversion Hs; subst; simpl in Ho; discriminate.
    + inversion Hs; subst. left. auto.
  - destruct (qltb (Row.fundingRate row) (entry_threshold config)); inversion Hs; subst.
    + right. auto.
    + rewrite Eo in Ho. discriminate.
Qed.

(** If the loop ends with a position open, its trades and realized P&L are
    those the loop had reached just before that position's entry. *)
Lemma loop_open_at_end (config : BacktestConfig) (df rows : list Row.t) :
  forall (i : nat) (s st : SimState),
  loop config df rows i s = Ok st -> position_open st = true ->
  (position_open s = true /\ entry_idx st = entry_idx s /\
   trades st = trades s /\ total_pnl st = total_pnl s) \/
  ((i <= entry_idx st)%nat /\
   exists s', loop config df (firstn (entry_idx st - i) rows) i s = Ok s' /\
              trades s' = trades st /\ total_pnl s' = total_pnl st).
Proof.
  induction rows as [|row rest IH]; intros i s st Hl Ho; simpl in Hl.
  - inversion Hl; subst. left. auto.
  - destruct (step config df s i row) as [s1|e] eqn:Es; [|discriminate].
    destruct (IH (S i) s1 st Hl Ho) as [(Ho1 & He & Ht & Hp) | (Hle & s' & Hs' & Ht & Hp)].
    + destruct (step_open_cases config df s s1 i row Es Ho1)
        as [(Ho0 & He0 & Ht0 & Hp0) | (Ho0 & He0 & Ht0 & Hp0)].
      * left. repeat split; congruence.
      * right. split; [lia|]. exists s. rewrite He, He0, Nat.sub_diag. simpl.
        split; [reflexivity|]. split; congruence.
    + right. split; [lia|]. exists s'.
      replace (entry_idx st - i)%nat with (S (entry_idx st - S i)) by lia.
      simpl. rewrite Es. auto.
Qed.

(** C6 (as the code has it): the simulation completes on every series;
    when it ends with a position
    still open, the completed trades and the realized P&L are exactly those
    reached before that position's entry: the open position adds no trade
    record and nothing to [total_pnl], and [run_backtest] reports the trade
    count and P&L of those completed trades only. *)
Theorem run_backtest_open_position_excluded (funding_data : list Row.t)
  (config : BacktestConfig) :
  exists st, simulate config (sort_by_time funding_data) = Ok st /\
  (position_open st = true ->
   (exists s', after config (sort_by_time funding_data) (entry_idx st) = Ok s' /\
               trades s' = trades st /\ total_pnl s' = total_pnl st) /\
   (forall r, run_backtest funding_data config = Ok (Report r) ->
      total_trades r = length (trades st) /\ report_total_pnl r = total_pnl st)).
Proof.
  destruct (simulate_total config (sort_by_time funding_data)) as [st Hs].
  exists st. split; [exact Hs|]. intros Ho. split.
  - unfold simulate in Hs.
    destruct (loop_open_at_end config _ _ 0 sim_init st Hs Ho)
      as [(Ho0 & _) | (_ & s' & Hs' & Ht & Hp)].
    + simpl in Ho0. discriminate.
    + exists s'. rewrite Nat.sub_0_r in Hs'. auto.
  - intros r Hr. destruct funding_data as [|first rest]; [discriminate|].
    unfold run_backtest in Hr. rewrite Hs in Hr.
    destruct (if Z.eqb _ 0%Z then _ else _) as [ann|e]; [|discriminate].
    injection Hr as <-. auto.
Qed.

(** C6, counterexample: with cost-free settings, a series that leaves a
    position open at its end and one that never opens a position produce
    the same [run_backtest] result, so the result cannot report the open
    position. *)
Lemma run_backtest_open_position_unreported :
  match simulate costless_config [Row.mk (-2 # 1000) 0 (Some "BTCUSDT"%string)],
        simulate costless_config [Row.mk 0 0 (Some "BTCUSDT"%string)] with
  | Ok s1, Ok s2 => position_open s1 = true /\ position_open s2 = false
  | _, _ => False
  end /\
  run_backtest [Row.mk (-2 # 1000) 0 (Some "BTCUSDT"%string)] costless_config =
  run_backtest [Row.mk 0 0 (Some "BTCUSDT"%string)] costless_config.
Proof. vm_compute. split; [split; reflexivity | reflexivity]. Qed.

(* ------------------------------------------------------------------ *)
(** ** Backtest: funding bookkeeping *)

Lemma funding_sum_succ (config : BacktestConfig) (df : list Row.t) (a b : nat) :
  (a <= b)%nat ->
  funding_sum config df a (S b) = funding_sum config df a b + - rate_at df b * position_size config.
Proof.
  intros Hab. unfold funding_sum.
  replace (S b - a)%nat with (S (b - a)) by lia.
  rewrite seq_S, fold_left_app. simpl.
  replace (a + (b - a))%nat with b by lia. reflexivity.
Qed.

Lemma funding_sum_empty (config : BacktestConfig) (df : list Row.t) (a : nat) :
  funding_sum config df a a = 0.
Proof. unfold funding_sum. rewrite Nat.sub_diag. reflexivity. Qed.

Lemma qsum_snoc {A} (f : A -> Q) (l : list A) (x : A) :
  qsum f (l ++ [x]) == qsum f l + f x.
Proof.
  unfold qsum. rewrite fold_right_app. simpl.
  induction l as [|y ys IH]; simpl; [ring|]. rewrite IH. ring.
Qed.

Lemma skipn_cons_nth (df : list Row.t) (i : nat) (row : Row.t) (rest : list Row.t) :
  skipn i df = row :: rest -> rate_at df i = Row.fundingRate row /\ skipn (S i) df = rest.
Proof.
  revert i. induction df as [|d ds IH]; intros i H.
  - destruct i; discriminate.
  - destruct i as [|i]; simpl in H.
    + inversion H; subst. split; reflexivity.
    + apply (IH i H).
Qed.

Lemma fund_inv_init (config : BacktestConfig) (df : list Row.t) :
  fund_inv config df sim_init 0.
Proof.
  split; [intros H; discriminate|]. split; [intros t []|]. simpl. reflexivity.
Qed.

Lemma step_fund_inv (config : BacktestConfig) (df : list Row.t) (s s1 : SimState)
  (i : nat) (row : Row.t) :
  fund_inv config df s i -> rate_at df i = Row.fundingRate row ->
  step config df s i row = Ok s1 -> fund_inv config df s1 (S i).
Proof.
  intros (Hopen & Htr & Heq) Hrate Hs. unfold step in Hs. unfold fund_inv.
  destruct (position_open s) eqn:Eo; simpl in Hs.
  - destruct (Hopen eq_refl) as [Hlt Her].
    destruct (qltb (exit_threshold config) (Row.fundingRate row)).
    + inversion Hs; subst; clear Hs.
      split; [intros H; discriminate|]. split.
      * simpl. intros t Ht. apply in_app_or in Ht as [Ht | [<- | []]].
        -- destruct (Htr t Ht) as (e & x & Hx & Hrest). exists e, x. split; [lia | exact Hrest].
        -- exists (entry_idx s), i. simpl. split; [lia|]. split; [reflexivity|].
           split; [exact Her | rewrite funding_sum_succ by lia; reflexivity].
      * simpl. rewrite !qsum_snoc. unfold entry_funding in *. simpl.
        rewrite funding_sum_succ by lia. rewrite Hrate. lra.
    + inversion Hs; subst; clear Hs. simpl.
      split; [intros _; split; [lia | exact Her]|]. split.
      * intros t Ht. destruct (Htr t Ht) as (e & x & Hx & Hrest). exists e, x. split; [lia | exact Hrest].
      * rewrite funding_sum_succ by lia. rewrite Hrate. lra.
  - destruct (qltb (Row.fundingRate row) (entry_threshold config)); inversion Hs; subst; clear Hs.
    + simpl. split; [intros _; split; [lia | symmetry; exact Hrate]|]. split.
      * intros t Ht. destruct (Htr t Ht) as (e & x & Hx & Hrest). exists e, x. split; [lia | exact Hrest].
      * rewrite funding_sum_succ, funding_sum_empty by lia. rewrite Hrate. lra.
    + split; [rewrite Eo; intros H; discriminate|]. split.
      * intros t Ht. destruct (Htr t Ht) as (e & x & Hx & Hrest). exists e, x. split; [lia | exact Hrest].
      * rewrite Eo. exact Heq.
Qed.

Lemma loop_fund_inv (config : BacktestConfig) (df rows : list Row.t) :
  forall (i : nat) (s st : SimState),
  skipn i df = rows -> fund_inv config df s i ->
  loop config df rows i s = Ok st -> fund_inv config df st (i + length rows).
Proof.
  induction rows as [|row rest IH]; intros i s st Hsk Hinv Hl; simpl in Hl.
  - inversion Hl; subst. rewrite Nat.add_0_r. exact Hinv.
  - destruct (step config df s i row) as [s1|e] eqn:Es; [|discriminate].
    destruct (skipn_cons_nth df i row rest Hsk) as [Hrate Hsk'].
    pose proof (step_fund_inv config df s s1 i row Hinv Hrate Es) as Hinv1.
    simpl. replace (i + S (length rest))%nat with (S i + length rest)%nat by lia.
    exact (IH (S i) s1 st Hsk' Hinv1 Hl).
Qed.

(** C10 (as the code has it): the simulation completes on every frame;
    every completed trade's
    [funding_collected] is the sum of [-fundingRate * position_size] over
    the indices from its entry index to its exit index inclusive, while
    [total_funding] accrues only at indices after an entry; so the trades'
    funding minus [total_funding] equals the entry-period funding of the
    trades, less the funding a position still open at the end accrued
    after its entry (nothing when no position is open at the end). *)
Theorem backtest_trade_funding_vs_total (config : BacktestConfig) (df : list Row.t) :
  exists st, simulate config df = Ok st /\
  (forall t, In t (trades st) -> exists e x, (e < x < length df)%nat /\
     Trade.periods t = (x - e)%nat /\ Trade.avg_funding t = rate_at df e /\
     Trade.funding_collected t = funding_sum config df e (S x)) /\
  qsum Trade.funding_collected (trades st) - total_funding st ==
  qsum (entry_funding config) (trades st)
  - (if position_open st
     then funding_sum config df (entry_idx st) (length df)
          - - entry_rate st * position_size config
     else 0).
Proof.
  destruct (simulate_total config df) as [st Hs].
  exists st. split; [exact Hs|]. unfold simulate in Hs.
  destruct (loop_fund_inv config df df 0 sim_init st eq_refl (fund_inv_init config df) Hs)
    as (_ & Htr & Heq).
  simpl in Htr, Heq. split; [exact Htr|].
  destruct (position_open st); lra.
Qed.

(** C10, counterexample: on [-0.002, -0.0018, -0.0002, -0.002, -0.0018]
    with the default configuration one trade completes (indices 0 to 2)
    and a second position stays open; the trades' funding exceeds
    [total_funding] by 0.2, not by the trade's entry-period funding 2. *)
Lemma backtest_funding_gap_open_position :
  match simulate BacktestConfig_default open_end_rows with
  | Ok st =>
      position_open st = true /\ length (trades st) = 1%nat /\
      qsum (entry_funding BacktestConfig_default) (trades st) == 2 /\
      qsum Trade.funding_collected (trades st) - total_funding st == 2 # 10 /\
      ~ qsum Trade.funding_collected (trades st) - total_funding st
        == qsum (entry_funding BacktestConfig_default) (trades st)
  | Raise _ => False
  end.
Proof. vm_compute. repeat split; try reflexivity. discriminate. Qed.

(* ------------------------------------------------------------------ *)
(** ** Executor *)

Section Executor.

Variables (long_exchange short_exchange symbol base_asset : string).
Variables (size_usd funding_rate now : Q).


(** C1 (as the code has it): when the long leg fills and the short leg's
    [place_order] raises [e], [open_position] raises that same [e] (the
    code defines no [LegImbalanceError]), returns no position, and leaves
    the executor state, hence [active_positions], unchanged; the filled long
    leg is not unwound. *)
Theorem open_position_short_leg_fault (s : ExecState) (lc sc : Client)
  (long_result : Order.t) (e : exn) :
  clients s !! long_exchange = Some lc ->
  clients s !! short_exchange = Some sc ->
  lc (long_leg_order long_exchange symbol size_usd) = Ok long_result ->
  sc (short_leg_order short_exchange symbol size_usd) = Raise e ->
  open_position long_exchange short_exchange symbol base_asset size_usd funding_rate now s
  = (Raise e, s).
Proof.
  intros Hl Hs Hlo Hso.
  unfold open_position, m_bind, m_get, m_lift, dict_get. rewrite Hl, Hs.
  fold (long_leg_order long_exchange symbol size_usd)
       (short_leg_order short_exchange symbol size_usd).
  rewrite Hlo, Hso. reflexivity.
Qed.

(** C2 (as the code has it): when both legs return, [open_position]
    records each leg's [filled_size] as its client reported it, with no
    comparison of the two sizes, stores the position under its id and
    returns it; both legs were requested at [size_usd / 100]. *)
Theorem open_position_records_fills (s : ExecState) (lc sc : Client)
  (long_result short_result : Order.t) :
  clients s !! long_exchange = Some lc ->
  clients s !! short_exchange = Some sc ->
  lc (long_leg_order long_exchange symbol size_usd) = Ok long_result ->
  sc (short_leg_order short_exchange symbol size_usd) = Ok short_result ->
  exists s' p,
    open_position long_exchange short_exchange symbol base_asset size_usd funding_rate now s
      = (Ok (next_loc s), s') /\
    heap s' !! next_loc s = Some p /\
    active_positions s' !! ArbPosition.id p = Some (next_loc s) /\
    Order.size (long_leg_order long_exchange symbol size_usd) = size_usd / 100 /\ Order.size (short_leg_order short_exchange symbol size_usd) = size_usd / 100 /\
    Position.size (ArbPosition.long_leg p) = Order.filled_size long_result /\
    Position.size (ArbPosition.short_leg p) = Order.filled_size short_result /\
    ArbPosition.status p = "open"%string.
Proof.
  intros Hl Hs Hlo Hso.
  unfold open_position, m_bind, m_get, m_lift, m_put, m_ret, dict_get. rewrite Hl, Hs.
  fold (long_leg_order long_exchange symbol size_usd)
       (short_leg_order short_exchange symbol size_usd).
  rewrite Hlo, Hso. simpl.
  eexists. eexists. split; [reflexivity|]. simpl.
  rewrite lookup_insert_eq. split; [reflexivity|]. simpl.
  rewrite lookup_insert_eq. repeat split; reflexivity.
Qed.

End Executor.

(** C9: [close_position] on an unknown id raises [ValueError] and changes
    nothing; on a known id whose two closing orders fill, it marks the
    (shared) position object ["closed"], removes the id from
    [active_positions] and returns the position's funding and P&L. *)
Theorem close_position_spec (s : ExecState) (pos_id : string) :
  (active_positions s !! pos_id = None ->
   close_position pos_id s =
   (Raise (PyExc "ValueError" ("Position " +:+ pos_id +:+ " not found")), s)) /\
  (forall (l : loc) (pos : ArbPosition.t) (lc sc : Client) (rl rs : Order.t),
   active_positions s !! pos_id = Some l ->
   heap s !! l = Some pos ->
   clients s !! Position.exchange (ArbPosition.long_leg pos) = Some lc ->
   clients s !! Position.exchange (ArbPosition.short_leg pos) = Some sc ->
   lc (Order.new (Position.exchange (ArbPosition.long_leg pos))
         (Position.symbol (ArbPosition.long_leg pos)) SHORT
         (Position.size (ArbPosition.long_leg pos)) MARKET) = Ok rl ->
   sc (Order.new (Position.exchange (ArbPosition.short_leg pos))
         (Position.symbol (ArbPosition.short_leg pos)) LONG
         (Position.size (ArbPosition.short_leg pos)) MARKET) = Ok rs ->
   exists s',
     close_position pos_id s =
       (Ok (Summary.mk pos_id (ArbPosition.total_funding_collected pos)
                       (ArbPosition.total_pnl pos)), s') /\
     heap s' !! l = Some (ArbPosition.set_status pos "closed") /\
     ArbPosition.status (ArbPosition.set_status pos "closed") = "closed"%string /\
     active_positions s' = delete pos_id (active_positions s) /\
     active_positions s' !! pos_id = None).
Proof.
  split.
  - intros Hn. unfold close_position, m_bind, m_get. rewrite Hn. reflexivity.
  - intros l pos lc sc rl rs Ha Hh Hlc Hsc Hl Hs.
    unfold close_position, m_bind, m_get, m_lift, m_put, m_ret, dict_get.
    rewrite Ha, Hh, Hlc, Hsc, Hl, Hs. simpl.
    eexists. split; [reflexivity|]. simpl.
    rewrite lookup_insert_eq. split; [reflexivity|]. split; [reflexivity|].
    split; [reflexivity|]. apply lookup_delete_eq.
Qed.

(** C1, counterexample: the long leg fills on the simulated Binance client
    and the short leg's client raises [ConnectionError]; [open_position]
    raises that [ConnectionError], not a [LegImbalanceError]. *)
Lemma open_position_no_leg_imbalance_error :
  match fst (open_sol short_fault_executor) with
  | Raise e => exn_class e = "ConnectionError"%string /\
               exn_class e <> "LegImbalanceError"%string
  | Ok _ => False
  end.
Proof. vm_compute. split; [reflexivity | discriminate]. Qed.

(** C2, counterexample: with a short-leg client that fills half the order,
    [open_position] returns and stores a position whose long leg has size
    10 and whose short leg has size 5, without any fault. *)
Lemma open_position_unbalanced_fill :
  match open_sol short_half_executor with
  | (Ok l, s') =>
      match heap s' !! l with
      | Some p =>
          Position.size (ArbPosition.long_leg p) == 10 /\
          Position.size (ArbPosition.short_leg p) == 5 /\
          active_positions s' !! ArbPosition.id p = Some l
      | None => False
      end
  | (Raise _, _) => False
  end.
Proof. vm_compute. repeat split; reflexivity. Qed.

(* ------------------------------------------------------------------ *)
(** ** Witnesses: the theorems' hypotheses hold on concrete inputs *)

Lemma calculate_opportunity_net_yield_witness :
  RateData.rate (RateData.mk "binance" "BTCUSDT" (-3 # 1000)) < 0 /\
  is_whitelisted Config_default "BTCUSDT" = true /\
  -3 # 1000 <= min_funding_rate (trading Config_default) /\
  exists opp, calculate_opportunity Config_default "2026-01-01T00:00:00"
                (RateData.mk "binance" "BTCUSDT" (-3 # 1000)) = Some opp /\
              Opportunity.net_yield_annualized opp == Opportunity.net_yield_8h opp * 3 * 365 * 100.
Proof.
  assert (H1 : RateData.rate (RateData.mk "binance" "BTCUSDT" (-3 # 1000)) < 0) by reflexivity.
  assert (H2 : is_whitelisted Config_default "BTCUSDT" = true) by reflexivity.
  assert (H3 : -3 # 1000 <= min_funding_rate (trading Config_default))
    by (apply Qle_bool_iff; reflexivity).
  split; [exact H1|]. split; [exact H2|]. split; [exact H3|].
  destruct (calculate_opportunity_net_yield Config_default "2026-01-01T00:00:00"
              (RateData.mk "binance" "BTCUSDT" (-3 # 1000)) H1 H2 H3)
    as (opp & Hc & _ & _ & _ & _ & _ & Hn & _).
  exists opp. split; [exact Hc | exact Hn].
Defined.

Lemma lifecycle_one_trade_witness :
  entry_threshold zero_size_config = -15 # 10000 /\
  exit_threshold zero_size_config = -5 # 10000 /\
  exists r, run_backtest lifecycle_rows zero_size_config = Ok (Report r) /\
            total_trades r = 1%nat.
Proof.
  assert (H1 : entry_threshold zero_size_config = -15 # 10000) by reflexivity.
  assert (H2 : exit_threshold zero_size_config = -5 # 10000) by reflexivity.
  split; [exact H1|]. split; [exact H2|].
  destruct (lifecycle_one_trade zero_size_config H1 H2) as [_ (r & Hr & Ht & _)].
  exists r. split; [exact Hr | exact Ht].
Defined.

Lemma run_backtest_no_entry_witness :
  exists r, run_backtest (rows_from 0 [0; -1 # 10000; 2 # 10000]) BacktestConfig_default
            = Ok (Report r) /\ total_trades r = 0%nat /\ win_rate r = 0.
Proof.
  assert (H1 : rows_from 0 [0; -1 # 10000; 2 # 10000] <> []) by discriminate.
  assert (H2 : ~ position_size BacktestConfig_default == 0) by (vm_compute; discriminate).
  assert (H3 : Forall (fun r => entry_threshold BacktestConfig_default <= Row.fundingRate r)
                 (rows_from 0 [0; -1 # 10000; 2 # 10000]))
    by (repeat constructor; apply Qle_bool_iff; reflexivity).
  destruct (run_backtest_no_entry _ _ H1 H2 H3) as [_ (r & Hr & Ht & _ & _ & Hw & _)].
  exists r. auto.
Defined.

Lemma run_backtest_open_position_excluded_witness :
  exists st s', simulate zero_size_config (sort_by_time open_end_rows) = Ok st /\
    position_open st = true /\
    after zero_size_config (sort_by_time open_end_rows) (entry_idx st) = Ok s' /\
    trades s' = trades st /\ length (trades st) = 1%nat.
Proof.
  destruct (run_backtest_open_position_excluded open_end_rows zero_size_config)
    as (st & E & H).
  assert (Ho : position_open st = true) by (vm_compute in E; injection E as <-; reflexivity).
  assert (Hl : length (trades st) = 1%nat) by (vm_compute in E; injection E as <-; reflexivity).
  destruct (H Ho) as [(s' & Hs' & Ht & _) _].
  exists st, s'. auto.
Defined.

Lemma backtest_trade_funding_vs_total_witness :
  exists st, simulate BacktestConfig_default lifecycle_rows = Ok st /\
    position_open st = false /\
    qsum Trade.funding_collected (trades st) - total_funding st ==
    qsum (entry_funding BacktestConfig_default) (trades st).
Proof.
  destruct (backtest_trade_funding_vs_total BacktestConfig_default lifecycle_rows)
    as (st & E & _ & Heq).
  assert (Ho : position_open st = false) by (vm_compute in E; injection E as <-; reflexivity).
  rewrite Ho in Heq. exists st. split; [exact E|]. split; [exact Ho|].
  rewrite Heq. ring.
Defined.

Lemma open_position_short_leg_fault_witness :
  open_sol short_fault_executor = (Raise (PyExc "ConnectionError" "timeout"), short_fault_executor).
Proof.
  eapply (open_position_short_leg_fault "binance" "bybit" "SOLUSDT" "SOL" 1000 (-2 # 1000) 0
           short_fault_executor (sim_place_order 0) fault_client _
           (PyExc "ConnectionError" "timeout")); reflexivity.
Defined.

Lemma open_position_records_fills_witness :
  exists s' p, open_sol short_half_executor = (Ok 1%positive, s') /\
    heap s' !! 1%positive = Some p /\
    Position.size (ArbPosition.long_leg p) = 1000 / 100 /\
    Position.size (ArbPosition.short_leg p) = 1000 / 100 / 2.
Proof.
  destruct (open_position_records_fills "binance" "bybit" "SOLUSDT" "SOL" 1000 (-2 # 1000) 0
              short_half_executor (sim_place_order 0) half_fill_client _ _
              eq_refl eq_refl eq_refl eq_refl)
    as (s' & p & Ho & Hh & _ & _ & _ & Hl & Hs & _).
  exists s', p. auto.
Defined.

Lemma close_position_spec_witness :
  exists s', close_position "arb_0" (snd (open_sol sim_executor)) =
             (Ok (Summary.mk "arb_0" 0 0), s') /\
             active_positions s' !! "arb_0"%string = None /\
    close_position "unknown" sim_executor =
    (Raise (PyExc "ValueError" "Position unknown not found"), sim_executor).
Proof.
  destruct (close_position_spec (snd (open_sol sim_executor)) "arb_0") as [_ H].
  edestruct H as (s' & Hc & _ & _ & _ & Hn); try reflexivity.
  destruct (close_position_spec sim_executor "unknown") as [Hu _].
  exists s'. split; [exact Hc|]. split; [exact Hn|]. apply Hu. reflexivity.
Defined.

(* ------------------------------------------------------------------ *)
(** ** The executor's heap invariant *)

Lemma heap_ok_init (cs : gmap string Client) : heap_ok (executor_init cs).
Proof.
  split; simpl.
  - intros k l Hk. rewrite lookup_empty in Hk. discriminate.
  - intros l [p Hp]. rewrite lookup_empty in Hp. discriminate.
Qed.

Lemma open_position_heap_ok (le se sym base : string) (su fr now : Q) (s : ExecState) :
  heap_ok s -> heap_ok (snd (open_position le se sym base su fr now s)).
Proof.
  intros [Ha Hn].
  unfold open_position, m_bind, m_get, m_lift, m_put, m_ret, dict_get.
  destruct (clients s !! le) as [lc|]; [|split; assumption].
  destruct (clients s !! se) as [sc|]; [|split; assumption].
  destruct (gather2 _ _) as [[lr sr]|e]; [|split; assumption].
  simpl. split; simpl.
  - intros k l Hk. apply lookup_insert_is_Some'.
    apply lookup_insert_Some in Hk as [[_ <-] | [_ Hk]]; [left; reflexivity|].
    right. exact (Ha k l Hk).
  - intros l Hl. apply lookup_insert_is_Some' in Hl as [<- | Hl]; [lia|].
    specialize (Hn l Hl). lia.
Qed.

Lemma close_position_heap_ok (pos_id : string) (s : ExecState) :
  heap_ok s -> heap_ok (snd (close_position pos_id s)).
Proof.
  intros [Ha Hn].
  unfold close_position, m_bind, m_get, m_lift, m_put, m_ret, m_raise, dict_get.
  destruct (active_positions s !! pos_id) as [l|] eqn:El; [|split; assumption].
  cbv beta iota.
  destruct (heap s !! l) as [pos|] eqn:Eh; [|split; assumption].
  cbv beta iota.
  destruct (clients s !! _) as [lc|]; [|split; assumption].
  destruct (clients s !! _) as [sc|]; [|split; assumption].
  destruct (gather2 _ _) as [r|e]; [|split; assumption].
  simpl. split; simpl.
  - intros k l' Hk. apply lookup_delete_Some in Hk as [_ Hk].
    apply lookup_insert_is_Some'. right. exact (Ha k l' Hk).
  - intros l' Hl. apply lookup_insert_is_Some' in Hl as [<- | Hl].
    + apply Hn. rewrite Eh. eexists; reflexivity.
    + exact (Hn l' Hl).
Qed.
(* ------------------------------------------------------------------ *)
(** ** The simulated exchange's bookkeeping *)

Lemma side_eqb_true_iff (a b : Side) : side_eqb a b = true <-> a = b.
Proof. destruct a, b; simpl; split; congruence. Qed.

Lemma sim_place_order_shape (ms : Z) (o : Order.t) :
  exists r, sim_place_order ms o = Ok r /\ Order.symbol r = Order.symbol o /\
    Order.side r = Order.side o /\ Order.filled_size r = Order.size o /\
    Order.status r = "filled"%string /\ is_Some (Order.fill_price r).
Proof. eexists. split; [reflexivity|]. simpl. repeat split. eexists; reflexivity. Qed.

Lemma place_order_new_position (t : Q) (c : SimClient) (o : Order.t) :
  positions c !! Order.symbol o = None ->
  exists r c', SimulatedClient_place_order t c o = Ok (r, c') /\
    Order.status r = "filled"%string /\ Order.filled_size r = Order.size o /\
    get_position c' (Order.symbol o) =
      Some (Position.mk (sc_exchange c) (Order.symbol o) (Order.side o) (Order.size o)
              (Order.fill_price r) t 0 0) /\
    (forall sym, sym <> Order.symbol o -> get_position c' sym = get_position c sym) /\
    orders c' = orders c ++ [r].
Proof.
  intros Hn. unfold SimulatedClient_place_order.
  destruct (sim_place_order_shape (Qfloor (t * 1000)) o) as (r & -> & Hs & Hd & Hf & Hst & _).
  cbv beta iota zeta. rewrite Hs, Hn.
  eexists r, _. split; [reflexivity|]. split; [exact Hst|]. split; [exact Hf|].
  unfold get_position; simpl. rewrite lookup_insert_eq, Hd, Hf.
  split; [reflexivity|]. split; [|reflexivity].
  intros sym Hne. apply lookup_insert_ne. congruence.
Qed.

(** [place_order] on a symbol with no position opens one on the order's
    side, of the order's size at its fill price; the other symbols'
    positions are untouched and the filled order is appended to [orders]. *)
Theorem SimulatedClient_place_order_new_position (t : Q) (c : SimClient) (o : Order.t) :
  positions c !! Order.symbol o = None ->
  exists r c', SimulatedClient_place_order t c o = Ok (r, c') /\
    Order.status r = "filled"%string /\ Order.filled_size r = Order.size o /\
    get_position c' (Order.symbol o) =
      Some (Position.mk (sc_exchange c) (Order.symbol o) (Order.side o) (Order.size o)
              (Order.fill_price r) t 0 0) /\
    (forall sym, sym <> Order.symbol o -> get_position c' sym = get_position c sym) /\
    orders c' = orders c ++ [r].
Proof. apply place_order_new_position. Qed.


(** [place_order] on the side of an existing position with a non-zero
    total size adds the order's size to the position and sets its entry
    price to the size-weighted average of the two prices. *)
Theorem SimulatedClient_place_order_same_side (t : Q) (c : SimClient) (o : Order.t)
  (pos : Position.t) (ep : Q) :
  positions c !! Order.symbol o = Some pos ->
  Position.side pos = Order.side o ->
  Position.entry_price pos = Some ep ->
  ~ Position.size pos + Order.size o == 0 ->
  exists r c' fp, SimulatedClient_place_order t c o = Ok (r, c') /\
    Order.fill_price r = Some fp /\
    get_position c' (Order.symbol o) =
      Some (pos_resize pos
              (Some ((ep * Position.size pos + fp * Order.size o) / (Position.size pos + Order.size o)))
              (Position.size pos + Order.size o)) /\
    orders c' = orders c ++ [r].
Proof.
  intros Hp Hside Hep Hnz. unfold SimulatedClient_place_order.
  destruct (sim_place_order_shape (Qfloor (t * 1000)) o) as (r & -> & Hs & Hd & Hf & _ & [fp Hfp]).
  cbv beta iota zeta. rewrite Hs, Hp, Hd, Hside.
  replace (side_eqb (Order.side o) (Order.side o)) with true by (symmetry; apply side_eqb_true_iff; reflexivity).
  rewrite Hep, Hfp, Hf. unfold pydiv. rewrite (Qeq_bool_nonzero _ Hnz).
  eexists r, _, fp. split; [reflexivity|]. split; [exact Hfp|].
  unfold get_position; simpl. rewrite lookup_insert_eq. split; reflexivity.
Qed.

(** [place_order] on the side of an existing position whose size the order
    exactly cancels ([pos.size + order.size == 0], e.g. a zero-size order on
    a zero-size position) raises [ZeroDivisionError] in the entry-price
    average. *)
Theorem SimulatedClient_place_order_zero_size_raises (t : Q) (c : SimClient) (o : Order.t)
  (pos : Position.t) (ep : Q) :
  positions c !! Order.symbol o = Some pos ->
  Position.side pos = Order.side o ->
  Position.entry_price pos = Some ep ->
  Position.size pos + Order.size o == 0 ->
  SimulatedClient_place_order t c o = Raise (PyExc "ZeroDivisionError" "float division by zero").
Proof.
  intros Hp Hside Hep Hz. unfold SimulatedClient_place_order.
  destruct (sim_place_order_shape (Qfloor (t * 1000)) o) as (r & -> & Hs & Hd & Hf & _ & [fp Hfp]).
  cbv beta iota zeta. rewrite Hs, Hp, Hd, Hside.
  replace (side_eqb (Order.side o) (Order.side o)) with true by (symmetry; apply side_eqb_true_iff; reflexivity).
  rewrite Hep, Hfp, Hf. unfold pydiv.
  replace (Qeq_bool (Position.size pos + Order.size o) 0) with true
    by (symmetry; apply Qeq_bool_iff; exact Hz).
  reflexivity.
Qed.

Lemma place_order_opposite_side (t : Q) (c : SimClient) (o : Order.t)
  (pos : Position.t) :
  positions c !! Order.symbol o = Some pos ->
  Position.side pos <> Order.side o ->
  exists r c', SimulatedClient_place_order t c o = Ok (r, c') /\
    orders c' = orders c ++ [r] /\
    (Position.size pos <= Order.size o -> get_position c' (Order.symbol o) = None) /\
    (Order.size o < Position.size pos ->
     get_position c' (Order.symbol o) =
       Some (pos_resize pos (Position.entry_price pos) (Position.size pos - Order.size o))).
Proof.
  intros Hp Hside. unfold SimulatedClient_place_order.
  destruct (sim_place_order_shape (Qfloor (t * 1000)) o) as (r & -> & Hs & Hd & Hf & _ & _).
  cbv beta iota zeta. rewrite Hs, Hp, Hd.
  destruct (side_eqb (Position.side pos) (Order.side o)) eqn:Es.
  { apply side_eqb_true_iff in Es. contradiction. }
  rewrite Hf. unfold get_position.
  destruct (Qle_bool (Position.size pos) (Order.size o)) eqn:Ele.
  - eexists r, _. split; [reflexivity|]. simpl. split; [reflexivity|]. split.
    + intros _. apply lookup_delete_eq.
    + intros Hlt. apply Qle_bool_iff in Ele. lra.
  - eexists r, _. split; [reflexivity|]. simpl. split; [reflexivity|]. split.
    + intros Hle. apply Qle_bool_iff in Hle. congruence.
    + intros _. apply lookup_insert_eq.
Qed.

(** [place_order] against an existing position's side closes the position
    when the order's size reaches the position's size, and otherwise
    reduces it by the order's size, at the same entry price. *)
Theorem SimulatedClient_place_order_opposite_side (t : Q) (c : SimClient) (o : Order.t)
  (pos : Position.t) :
  positions c !! Order.symbol o = Some pos ->
  Position.side pos <> Order.side o ->
  exists r c', SimulatedClient_place_order t c o = Ok (r, c') /\
    orders c' = orders c ++ [r] /\
    (Position.size pos <= Order.size o -> get_position c' (Order.symbol o) = None) /\
    (Order.size o < Position.size pos ->
     get_position c' (Order.symbol o) =
       Some (pos_resize pos (Position.entry_price pos) (Position.size pos - Order.size o))).
Proof. apply place_order_opposite_side. Qed.

(** A successful [place_order] keeps the client's exchange and balance. *)
Lemma place_order_keeps (t : Q) (c : SimClient) (o r : Order.t) (c' : SimClient) :
  SimulatedClient_place_order t c o = Ok (r, c') ->
  balance c' = balance c /\ sc_exchange c' = sc_exchange c.
Proof.
  unfold SimulatedClient_place_order. intros H.
  destruct (sim_place_order _ o) as [r0|e]; [|discriminate].
  cbv beta iota zeta in H.
  repeat match type of H with
         | context [match ?x with _ => _ end] => destruct x
         end; try discriminate; injection H as _ <-; split; reflexivity.
Qed.

(** An order followed by an order of the same size on the opposite side of
    the same symbol, on a client with no position on that symbol, leaves
    the client's positions as they were; both orders are recorded. *)
Theorem SimulatedClient_round_trip (t1 t2 : Q) (c : SimClient) (o o' : Order.t) :
  positions c !! Order.symbol o = None ->
  Order.symbol o' = Order.symbol o ->
  Order.side o' <> Order.side o ->
  Order.size o' = Order.size o ->
  exists r r' c1 c2,
    SimulatedClient_place_order t1 c o = Ok (r, c1) /\
    SimulatedClient_place_order t2 c1 o' = Ok (r', c2) /\
    positions c2 = positions c /\ orders c2 = orders c ++ [r; r'] /\
    balance c2 = balance c.
Proof.
  intros Hn Hsym Hside Hsize.
  destruct (place_order_new_position t1 c o Hn)
    as (r & c1 & H1 & _ & _ & Hg & _ & Ho1).
  assert (Hp1 : positions c1 !! Order.symbol o' =
                Some (Position.mk (sc_exchange c) (Order.symbol o) (Order.side o) (Order.size o)
                        (Order.fill_price r) t1 0 0)) by (rewrite Hsym; exact Hg).
  destruct (place_order_opposite_side t2 c1 o' _ Hp1)
    as (r' & c2 & H2 & Ho2 & Hclose & _); [simpl; congruence|].
  exists r, r', c1, c2. split; [exact H1|]. split; [exact H2|].
  assert (Hc1 : positions c1 = <[Order.symbol o := Position.mk (sc_exchange c) (Order.symbol o)
                   (Order.side o) (Order.size o) (Order.fill_price r) t1 0 0]> (positions c)).
  { unfold SimulatedClient_place_order in H1.
    destruct (sim_place_order_shape (Qfloor (t1 * 1000)) o) as (r0 & E & Hs & Hd & Hf & _).
    rewrite E in H1. cbv beta iota zeta in H1. rewrite Hs, Hn in H1.
    injection H1 as <- <-. simpl. rewrite Hd, Hf. reflexivity. }
  assert (Hc2 : positions c2 = delete (Order.symbol o) (positions c1)).
  { unfold SimulatedClient_place_order in H2.
    destruct (sim_place_order_shape (Qfloor (t2 * 1000)) o') as (r0 & E & Hs & Hd & Hf & _).
    rewrite E in H2. cbv beta iota zeta in H2. rewrite Hs, Hp1, Hd in H2. simpl in H2.
    destruct (side_eqb (Order.side o) (Order.side o')) eqn:Es.
    { apply side_eqb_true_iff in Es. congruence. }
    rewrite Hf, Hsize in H2.
    replace (Qle_bool (Order.size o) (Order.size o)) with true in H2
      by (symmetry; apply Qle_bool_iff; lra).
    injection H2 as <- <-. simpl. rewrite Hsym. reflexivity. }
  split; [rewrite Hc2, Hc1; apply delete_insert_id; exact Hn|].
  split.
  - rewrite Ho2, Ho1, <- app_assoc. reflexivity.
  - destruct (place_order_keeps t1 c o r c1 H1) as [E1 _].
    destruct (place_order_keeps t2 c1 o' r' c2 H2) as [E2 _]. congruence.
Qed.


Lemma place_order_ok (t : Q) (c : SimClient) (o r : Order.t) (c' : SimClient) :
  sim_client_ok c -> SimulatedClient_place_order t c o = Ok (r, c') -> sim_client_ok c'.
Proof.
  intros Hok H. unfold SimulatedClient_place_order in H.
  destruct (sim_place_order_shape (Qfloor (t * 1000)) o) as (r0 & E & Hs & _ & _ & _ & Hfp).
  rewrite E in H. cbv beta iota zeta in H.
  destruct (positions c !! Order.symbol r0) as [pos|] eqn:Ep.
  - destruct (Hok _ _ Ep) as (Hps & Hpe & Hpp).
    destruct (side_eqb (Position.side pos) (Order.side r0)).
    + destruct (Position.entry_price pos) as [ep|], (Order.fill_price r0) as [fp|];
        try discriminate.
      destruct (pydiv _ _) as [avg|e]; [|discriminate].
      injection H as _ <-. intros sym p. simpl.
      intros Hl. apply lookup_insert_Some in Hl as [[<- <-] | [_ Hl]].
      * unfold pos_resize; simpl. repeat split; [exact Hps | exact Hpe | eexists; reflexivity].
      * exact (Hok sym p Hl).
    + destruct (Qle_bool _ _); injection H as _ <-; intros sym p; simpl; intros Hl.
      * apply lookup_delete_Some in Hl as [_ Hl]. exact (Hok sym p Hl).
      * apply lookup_insert_Some in Hl as [[<- <-] | [_ Hl]].
        -- unfold pos_resize; simpl. auto.
        -- exact (Hok sym p Hl).
  - injection H as _ <-. intros sym p. simpl.
    intros Hl. apply lookup_insert_Some in Hl as [[<- <-] | [_ Hl]].
    + simpl. auto.
    + exact (Hok sym p Hl).
Qed.

(** On a client whose positions all carry an entry price, [place_order]
    raises nothing but [ZeroDivisionError]. *)
Lemma place_order_raises_only_zero_division (t : Q) (c : SimClient) (o : Order.t) (e : exn) :
  sim_client_ok c -> SimulatedClient_place_order t c o = Raise e ->
  e = PyExc "ZeroDivisionError" "float division by zero".
Proof.
  intros Hok H. unfold SimulatedClient_place_order in H.
  destruct (sim_place_order_shape (Qfloor (t * 1000)) o) as (r0 & E & _ & _ & _ & _ & [fp Hfp]).
  rewrite E in H. cbv beta iota zeta in H.
  destruct (positions c !! Order.symbol r0) as [pos|] eqn:Ep; [|discriminate].
  destruct (Hok _ _ Ep) as (_ & _ & [ep Hep]).
  destruct (side_eqb (Position.side pos) (Order.side r0)).
  - rewrite Hep, Hfp in H. unfold pydiv in H.
    destruct (Qeq_bool _ 0); congruence.
  - destruct (Qle_bool _ _); discriminate.
Qed.

(** Along any sequence of successful [place_order] calls from
    [SimulatedClient(exchange)]: the balance [get_balance] reports stays
    10000, every position is stored under its own symbol, on this exchange
    and with an entry price, and [place_order] can raise nothing but
    [ZeroDivisionError] (never the [TypeError] a missing entry price would
    give). *)
Theorem SimulatedClient_reachable_invariant (exchange : string) (c : SimClient) :
  sim_reachable (SimulatedClient_new exchange) c ->
  get_balance c = {[ "USDT"%string := 10000 ]} /\ sc_exchange c = exchange /\
  (forall sym p, get_position c sym = Some p ->
     Position.symbol p = sym /\ Position.exchange p = exchange /\
     is_Some (Position.entry_price p)) /\
  (forall t o e, SimulatedClient_place_order t c o = Raise e ->
     e = PyExc "ZeroDivisionError" "float division by zero").
Proof.
  intros Hr.
  assert (Hinv : balance c = 10000 /\ sc_exchange c = exchange /\ sim_client_ok c).
  { induction Hr as [|c t o r c' Hr IH Hp].
    - split; [reflexivity|]. split; [reflexivity|].
      intros sym p Hl. simpl in Hl. rewrite lookup_empty in Hl. discriminate.
    - destruct IH as (Hb & He & Hok).
      destruct (place_order_keeps t c o r c' Hp) as [Hb' He'].
      split; [congruence|]. split; [congruence|].
      exact (place_order_ok t c o r c' Hok Hp). }
  destruct Hinv as (Hb & He & Hok).
  split; [unfold get_balance; rewrite Hb; reflexivity|]. split; [exact He|]. split.
  - intros sym p Hl. rewrite <- He. exact (Hok sym p Hl).
  - intros t o e H. exact (place_order_raises_only_zero_division t c o e Hok H).
Qed.

(* ------------------------------------------------------------------ *)
(** ** The monitor's scan *)

Lemma qltb_true_iff (a b : Q) : qltb a b = true <-> a < b.
Proof.
  unfold qltb. split.
  - intros H. apply Qnot_le_lt. intros Hle. apply Qle_bool_iff in Hle. rewrite Hle in H. discriminate.
  - intros H. destruct (Qle_bool b a) eqn:E; [|reflexivity].
    apply Qle_bool_iff in E. lra.
Qed.

Lemma qltb_false_iff (a b : Q) : qltb a b = false <-> b <= a.
Proof.
  unfold qltb. split.
  - intros H. apply Qle_bool_iff. destruct (Qle_bool b a); [reflexivity | discriminate].
  - intros H. apply Qle_bool_iff in H. rewrite H. reflexivity.
Qed.

Lemma calculate_net_yield_neg (r : Q) :
  r < 0 -> calculate_net_yield r == (- r - (274 # 1000000) - (8 # 10000)) * 109500.
Proof.
  intros Hr. unfold calculate_net_yield.
  rewrite (Qle_bool_false_lt _ _ Hr). unfold ROUND_TRIP_COST, BORROW_8H.
  field.
Qed.

Lemma net_yield_threshold (r : Q) :
  (MIN_NET_YIELD_APR <= calculate_net_yield r <->
   r <= - (BORROW_8H + ROUND_TRIP_COST / 3) - MIN_NET_YIELD_APR / (3 * 365 * 100)) /\
  (r < ALERT_FUNDING_THRESHOLD -> MIN_NET_YIELD_APR < calculate_net_yield r).
Proof.
  assert (Hc : - (BORROW_8H + ROUND_TRIP_COST / 3) - MIN_NET_YIELD_APR / (3 * 365 * 100)
               == - (147603 # 109500000)) by (vm_compute; reflexivity).
  rewrite Hc. unfold MIN_NET_YIELD_APR, ALERT_FUNDING_THRESHOLD.
  destruct (Qlt_le_dec r 0) as [Hn|Hp].
  - rewrite (calculate_net_yield_neg r Hn). split; [split; intros; lra | intros; lra].
  - unfold calculate_net_yield. apply Qle_bool_iff in Hp. rewrite Hp.
    apply Qle_bool_iff in Hp. split; [split; intros; lra | intros; lra].
Qed.

(** [calculate_net_yield] reaches [MIN_NET_YIELD_APR] exactly for the rates
    at or below [-(BORROW_8H + ROUND_TRIP_COST/3) - MIN_NET_YIELD_APR/109500]
    (about -0.1348%); every rate below [ALERT_FUNDING_THRESHOLD] is among
    them. *)
Theorem calculate_net_yield_threshold (r : Q) :
  (MIN_NET_YIELD_APR <= calculate_net_yield r <->
   r <= - (BORROW_8H + ROUND_TRIP_COST / 3) - MIN_NET_YIELD_APR / (3 * 365 * 100)) /\
  (r < ALERT_FUNDING_THRESHOLD -> MIN_NET_YIELD_APR < calculate_net_yield r).
Proof. apply net_yield_threshold. Qed.


Lemma find_opportunities_loop_filter (rates : list RateData.t) :
  find_opportunities_loop rates = map mon_opp_of (List.filter alert_rate rates).
Proof.
  induction rates as [|r rest IH]; [reflexivity|].
  cbn [find_opportunities_loop List.filter]. unfold alert_rate at 1.
  destruct (py_in (extract_base (RateData.symbol r)) WHITELIST); cbn [negb andb]; [|exact IH].
  unfold qltb.
  destruct (Qle_bool ALERT_FUNDING_THRESHOLD (RateData.rate r)) eqn:E; cbn [negb]; [exact IH|].
  assert (Hlt : RateData.rate r < ALERT_FUNDING_THRESHOLD).
  { apply Qnot_le_lt. intros Hle. apply Qle_bool_iff in Hle. congruence. }
  destruct (net_yield_threshold (RateData.rate r)) as [_ Hy].
  replace (Qle_bool MIN_NET_YIELD_APR (calculate_net_yield (RateData.rate r))) with true
    by (symmetry; apply Qle_bool_iff; apply Qlt_le_weak, Hy, Hlt).
  rewrite IH. reflexivity.
Qed.

Lemma insert_by_yield_perm (x : MonOpp.t) (l : list MonOpp.t) :
  Permutation (insert_by_yield x l) (x :: l).
Proof.
  induction l as [|y ys IH]; simpl; [reflexivity|].
  destruct (Qle_bool _ _); [reflexivity|].
  rewrite IH. apply perm_swap.
Qed.

Lemma sort_by_yield_perm (l : list MonOpp.t) : Permutation (sort_by_yield l) l.
Proof.
  induction l as [|x xs IH]; simpl; [reflexivity|].
  rewrite insert_by_yield_perm, IH. reflexivity.
Qed.


Lemma insert_by_yield_sorted (x : MonOpp.t) (l : list MonOpp.t) :
  Sorted yield_ge l -> Sorted yield_ge (insert_by_yield x l).
Proof.
  induction l as [|y ys IH]; simpl; intros Hs.
  - repeat constructor.
  - destruct (Qle_bool (MonOpp.net_yield_apr y) (MonOpp.net_yield_apr x)) eqn:E.
    + constructor; [exact Hs|]. constructor. apply Qle_bool_iff, E.
    + apply Sorted_inv in Hs as [Hys Hhd]. constructor; [exact (IH Hys)|].
      assert (Hyx : yield_ge y x).
      { unfold yield_ge. apply Qlt_le_weak, Qnot_le_lt. intros Hle.
        apply Qle_bool_iff in Hle. congruence. }
      destruct ys as [|z zs]; simpl; [constructor; exact Hyx|].
      destruct (Qle_bool (MonOpp.net_yield_apr z) (MonOpp.net_yield_apr x));
        constructor; [exact Hyx|]. inversion Hhd; assumption.
Qed.

Lemma sort_by_yield_sorted (l : list MonOpp.t) : Sorted yield_ge (sort_by_yield l).
Proof.
  induction l as [|x xs IH]; simpl; [constructor|]. apply insert_by_yield_sorted, IH.
Qed.

(** Sortedness carries over to a relation that agrees on the elements. *)
Lemma Sorted_weaken {A} (P : A -> Prop) (R R' : A -> A -> Prop) (l : list A) :
  (forall a b, P a -> P b -> R a b -> R' a b) -> Forall P l -> Sorted R l -> Sorted R' l.
Proof.
  intros Himp Hall Hs. induction Hs as [|a l Hs IH Hhd]; constructor.
  - apply IH. inversion Hall; assumption.
  - inversion Hall as [|? ? Pa Pl]; subst. destruct Hhd as [|b l' Hab]; constructor.
    apply Himp; [exact Pa | inversion Pl; assumption | exact Hab].
Qed.

Lemma find_opportunities_shape (rates : list RateData.t) :
  find_opportunities_loop rates = map mon_opp_of (List.filter alert_rate rates) /\
  Permutation (find_opportunities rates) (map mon_opp_of (List.filter alert_rate rates)) /\
  Sorted (fun a b => RateData.rate (MonOpp.rate_data a) <= RateData.rate (MonOpp.rate_data b))
    (find_opportunities rates).
Proof.
  pose proof (find_opportunities_loop_filter rates) as Hf.
  split; [exact Hf|].
  unfold find_opportunities. rewrite Hf. split; [apply sort_by_yield_perm|].
  apply (Sorted_weaken (fun o => exists r, o = mon_opp_of r /\ alert_rate r = true) yield_ge).
  - intros a b (ra & -> & Ha) (rb & -> & Hb). unfold yield_ge, mon_opp_of. simpl.
    unfold alert_rate in Ha, Hb. apply andb_prop in Ha as [_ Ha]. apply andb_prop in Hb as [_ Hb].
    apply qltb_true_iff in Ha, Hb. unfold ALERT_FUNDING_THRESHOLD in Ha, Hb.
    assert (Ha' : RateData.rate ra < 0) by lra. assert (Hb' : RateData.rate rb < 0) by lra.
    rewrite (calculate_net_yield_neg _ Ha'), (calculate_net_yield_neg _ Hb').
    intros H. lra.
  - apply List.Forall_forall. intros x Hx.
    apply (Permutation_in x (sort_by_yield_perm _)) in Hx.
    apply in_map_iff in Hx as (r & <- & Hr). apply filter_In in Hr as [_ Hr]. eauto.
  - apply sort_by_yield_sorted.
Qed.

(** [find_opportunities] keeps exactly the rates whose base asset
    [extract_base] finds in [WHITELIST] and whose rate is below
    [ALERT_FUNDING_THRESHOLD]: its [MIN_NET_YIELD_APR] test drops none of
    them. It returns them by decreasing net yield, that is by increasing
    (most negative first) funding rate. *)
Theorem find_opportunities_spec (rates : list RateData.t) :
  find_opportunities_loop rates = map mon_opp_of (List.filter alert_rate rates) /\
  Permutation (find_opportunities rates) (map mon_opp_of (List.filter alert_rate rates)) /\
  Sorted (fun a b => RateData.rate (MonOpp.rate_data a) <= RateData.rate (MonOpp.rate_data b))
    (find_opportunities rates).
Proof. apply find_opportunities_shape. Qed.


Lemma min_by_rate_spec (w : RateData.t) (ws : list RateData.t) :
  In (min_by_rate w ws) (w :: ws) /\
  forall x, In x (w :: ws) -> RateData.rate (min_by_rate w ws) <= RateData.rate x.
Proof.
  revert w. induction ws as [|r rest IH]; intros w; simpl.
  - split; [left; reflexivity|]. intros x [<- | []]. apply Qle_refl.
  - set (w' := if qltb (RateData.rate r) (RateData.rate w) then r else w).
    destruct (IH w') as [Hin Hmin].
    assert (Hw' : (w' = r \/ w' = w) /\ RateData.rate w' <= RateData.rate w /\
                  RateData.rate w' <= RateData.rate r).
    { unfold w'. destruct (qltb (RateData.rate r) (RateData.rate w)) eqn:E.
      - apply qltb_true_iff in E. split; [left; reflexivity|]. split; lra.
      - apply qltb_false_iff in E. split; [right; reflexivity|]. split; lra. }
    destruct Hw' as (Hw'e & Hw'w & Hw'r).
    split.
    + destruct Hin as [Heq | Hin]; [|right; right; exact Hin].
      destruct Hw'e as [-> | ->]; rewrite <- Heq; [right; left | left]; reflexivity.
    + intros x [<- | [<- | Hx]].
      * specialize (Hmin w' (or_introl eq_refl)). lra.
      * specialize (Hmin w' (or_introl eq_refl)). lra.
      * exact (Hmin x (or_intror Hx)).
Qed.

Lemma find_opportunities_nil_iff (rates : list RateData.t) :
  find_opportunities rates = [] <-> List.filter alert_rate rates = [].
Proof.
  destruct (find_opportunities_shape rates) as (_ & Hperm & _).
  split; intros H.
  - rewrite H in Hperm. apply Permutation_nil in Hperm.
    destruct (List.filter alert_rate rates); [reflexivity | discriminate].
  - rewrite H in Hperm. apply Permutation_sym, Permutation_nil in Hperm. exact Hperm.
Qed.

(** [run_scan] (after the fetch) reports opportunities exactly when some
    whitelisted rate lies below [ALERT_FUNDING_THRESHOLD]. Otherwise, when it
    names a best rate, that rate is a whitelisted negative input rate, not
    below the threshold, and the first of least rate among the whitelisted
    negative ones. *)
Theorem run_scan_outcome_spec (rates : list RateData.t) :
  ((exists opps, run_scan_outcome rates = Found opps) <->
   exists r, In r rates /\ alert_rate r = true) /\
  (forall b, run_scan_outcome rates = NoOppsBest b ->
   In b rates /\ py_in (extract_base (RateData.symbol b)) WHITELIST = true /\
   ALERT_FUNDING_THRESHOLD <= RateData.rate b < 0 /\
   (forall r, In r rates -> py_in (extract_base (RateData.symbol r)) WHITELIST = true ->
      RateData.rate r < 0 -> RateData.rate b <= RateData.rate r)).
Proof.
  pose proof (find_opportunities_nil_iff rates) as Hnil.
  split.
  - unfold run_scan_outcome. split.
    + intros [opps Ho]. destruct (find_opportunities rates) as [|o os] eqn:Ef.
      * exfalso. clear -Ho. revert Ho. case (List.filter _ _); intros; discriminate.
      * destruct (List.filter alert_rate rates) as [|r rs] eqn:Ea.
        { apply find_opportunities_nil_iff in Ea. congruence. }
        exists r. apply filter_In. rewrite Ea. left. reflexivity.
    + intros (r & Hr & Ha). destruct (find_opportunities rates) as [|o os] eqn:Ef.
      * apply find_opportunities_nil_iff in Ef. assert (Hin : In r (List.filter alert_rate rates)) by (apply filter_In; auto).
        rewrite Ef in Hin. destruct Hin.
      * eexists; reflexivity.
  - intros b Hb. unfold run_scan_outcome in Hb.
    destruct (find_opportunities rates) as [|o os] eqn:Ef; [|discriminate].
    apply find_opportunities_nil_iff in Ef.
    destruct (List.filter (fun r => py_in (extract_base (RateData.symbol r)) WHITELIST
                                    && qltb (RateData.rate r) 0) rates) as [|w ws] eqn:Ew;
      [discriminate|].
    injection Hb as <-.
    destruct (min_by_rate_spec w ws) as [Hin Hmin].
    rewrite <- Ew in Hin. apply filter_In in Hin as [Hin Hwl].
    apply andb_prop in Hwl as [Hwl Hneg]. apply qltb_true_iff in Hneg.
    split; [exact Hin|]. split; [exact Hwl|]. split; [split; [|exact Hneg]|].
    + destruct (Qlt_le_dec (RateData.rate (min_by_rate w ws)) ALERT_FUNDING_THRESHOLD)
        as [Hlt|Hge]; [|exact Hge].
      exfalso. assert (Hin' : In (min_by_rate w ws) (List.filter alert_rate rates)).
      { apply filter_In. split; [exact Hin|]. unfold alert_rate. rewrite Hwl.
        apply qltb_true_iff in Hlt. rewrite Hlt. reflexivity. }
      rewrite Ef in Hin'. destruct Hin'.
    + intros r Hr Hrw Hrn. apply Hmin. rewrite <- Ew. apply filter_In.
      split; [exact Hr|]. rewrite Hrw. apply qltb_true_iff in Hrn. rewrite Hrn. reflexivity.
Qed.

(** The opportunities found in the merged rates of [fetch_all_funding] are,
    up to order, those found in each venue's rates separately; a venue
    whose fetch raised contributes none. *)
Theorem find_opportunities_merge (results : list (res (list RateData.t))) :
  Permutation (find_opportunities (merge_results results))
    (flat_map (fun r => match r with Ok l => find_opportunities l | Raise _ => [] end) results).
Proof.
  assert (Hf : forall l, Permutation (find_opportunities l)
                           (map mon_opp_of (List.filter alert_rate l)))
    by (intros l; apply (find_opportunities_shape l)).
  rewrite Hf. induction results as [|[l|e] rest IH]; simpl; [reflexivity| |exact IH].
  rewrite List.filter_app, map_app, IH, (Hf l). reflexivity.
Qed.

(** The status [cmd_analyze] prints for a rate: ["ACTIONABLE"] exactly
    below the rate where [calculate_net_yield] passes 30, ["neutral"]
    exactly for non-negative rates, ["costs > yield"] in between. *)
Theorem analyze_status_spec (rate : Q) :
  (analyze_status rate = Actionable <->
   rate < - (BORROW_8H + ROUND_TRIP_COST / 3) - 30 / (3 * 365 * 100)) /\
  (analyze_status rate = CostsExceedYield <->
   - (BORROW_8H + ROUND_TRIP_COST / 3) - 30 / (3 * 365 * 100) <= rate < 0) /\
  (analyze_status rate = Neutral <-> 0 <= rate).
Proof.
  assert (Hc : - (BORROW_8H + ROUND_TRIP_COST / 3) - 30 / (3 * 365 * 100)
               == - (147603 # 109500000)) by (vm_compute; reflexivity).
  rewrite Hc. unfold analyze_status.
  destruct (Qlt_le_dec rate 0) as [Hn|Hp].
  - pose proof (calculate_net_yield_neg rate Hn) as Hy.
    destruct (qltb 30 (calculate_net_yield rate)) eqn:E.
    + apply qltb_true_iff in E.
      split; [split; [intros _; lra | reflexivity]|].
      split; split; intros H; try discriminate; lra.
    + apply qltb_false_iff in E.
      replace (qltb rate 0) with true by (symmetry; apply qltb_true_iff; exact Hn).
      split; [split; [discriminate | intros; lra]|].
      split; split; intros H; try discriminate; try reflexivity; lra.
  - assert (Hy : calculate_net_yield rate = 0)
      by (unfold calculate_net_yield; apply Qle_bool_iff in Hp; rewrite Hp; reflexivity).
    rewrite Hy. cbn [qltb Qle_bool]. simpl.
    replace (qltb rate 0) with false by (symmetry; apply qltb_false_iff; exact Hp).
    split; [split; [discriminate | intros; lra]|].
    split; split; intros H; try discriminate; try reflexivity; lra.
Qed.

(* ------------------------------------------------------------------ *)
(** ** Profitability analysis *)

Lemma break_even_cases (cost_per_trade cost' : Q) (h : Z) :
  (h = 0%Z ->
   calculate_break_even cost_per_trade h
   = Raise (PyExc "ZeroDivisionError" "float division by zero")) /\
  (h <> 0%Z -> exists m,
     calculate_break_even cost_per_trade h = Ok m /\ calculate_break_even cost' h = Ok m /\
     - m * 1000 * inject_Z h == (80 # 100) + (40 # 100) + (50 # 100) + (274 # 1000) * inject_Z h).
Proof.
  split.
  - intros ->. reflexivity.
  - intros Hh. unfold calculate_break_even, pydiv.
    assert (Hnz : ~ inject_Z (1000 * h) == 0).
    { rewrite inject_Z_mult. intros H. apply Qmult_integral in H as [H|H].
      - discriminate.
      - apply Hh. unfold Qeq in H. simpl in H. lia. }
    rewrite (Qeq_bool_nonzero _ Hnz).
    eexists. split; [reflexivity|]. split; [reflexivity|].
    rewrite inject_Z_mult in *. field.
    intros H. apply Hnz. rewrite H. ring.
Qed.

(** [calculate_break_even] ignores its [cost_per_trade] argument; with
    [hold_periods = 0] it raises [ZeroDivisionError]; otherwise the rate it
    returns is the break-even rate: funding [-rate * 1000] over
    [hold_periods] periods equals entry, exit, slippage and borrow costs. *)
Theorem calculate_break_even_spec (cost_per_trade cost' : Q) (h : Z) :
  (h = 0%Z ->
   calculate_break_even cost_per_trade h
   = Raise (PyExc "ZeroDivisionError" "float division by zero")) /\
  (h <> 0%Z -> exists m,
     calculate_break_even cost_per_trade h = Ok m /\ calculate_break_even cost' h = Ok m /\
     - m * 1000 * inject_Z h == (80 # 100) + (40 # 100) + (50 # 100) + (274 # 1000) * inject_Z h).
Proof. apply break_even_cases. Qed.

Lemma break_even_order (m1 m2 x y : Q) :
  0 < x -> x < y ->
  (m1 + (274 # 1000000)) * x == - (17 # 10000) ->
  (m2 + (274 # 1000000)) * y == - (17 # 10000) -> m1 < m2 /\ m2 < - (274 # 1000000).
Proof.
  intros Hx Hxy Hu Hv.
  set (u := m1 + (274 # 1000000)) in *. set (v := m2 + (274 # 1000000)) in *.
  assert (Hv0 : v < 0).
  { apply Qnot_le_lt. intros H. assert (0 <= v * y) by (apply Qmult_le_0_compat; lra). lra. }
  assert (Hu0 : u < 0).
  { apply Qnot_le_lt. intros H. assert (0 <= u * x) by (apply Qmult_le_0_compat; lra). lra. }
  assert (Huv : u < v).
  { apply Qnot_le_lt. intros H.
    assert (0 <= (u - v) * y) by (apply Qmult_le_0_compat; lra).
    assert (0 < (-u) * (y - x)) by (apply Qmult_lt_0_compat; lra).
    assert (E : u * x == v * y) by lra.
    assert (u * y - v * y + (-u) * (y - x) == 0) by (rewrite <- E; ring). lra. }
  unfold u, v in *. split; lra.
Qed.

(** The break-even rate rises with the holding period, staying below the
    per-period borrow rate [-0.000274]. *)
Theorem calculate_break_even_monotone (c : Q) (h1 h2 : Z) (m1 m2 : Q) :
  (0 < h1 < h2)%Z ->
  calculate_break_even c h1 = Ok m1 -> calculate_break_even c h2 = Ok m2 ->
  m1 < m2 /\ m2 < - (274 # 1000000).
Proof.
  intros [H1 H12] E1 E2.
  destruct (proj2 (break_even_cases c c h1) ltac:(lia)) as (m1' & E1' & _ & Hm1).
  destruct (proj2 (break_even_cases c c h2) ltac:(lia)) as (m2' & E2' & _ & Hm2).
  rewrite E1 in E1'. injection E1' as <-. rewrite E2 in E2'. injection E2' as <-.
  assert (Hx : 0 < inject_Z h1) by (unfold Qlt; simpl; lia).
  assert (Hxy : inject_Z h1 < inject_Z h2) by (rewrite <- Zlt_Qlt; exact H12).
  set (x := inject_Z h1) in *. set (y := inject_Z h2) in *.
  apply (break_even_order m1 m2 x y Hx Hxy).
  - assert (Hy : 0 < y) by lra. lra.
  - assert (Hy : 0 < y) by lra. lra.
Qed.


Lemma skipn_cons_nth_gen {A} (d : A) (l : list A) (i : nat) (a : A) (rest : list A) :
  skipn i l = a :: rest -> nth i l d = a /\ skipn (S i) l = rest.
Proof.
  revert i. induction l as [|b bs IH]; intros i H.
  - destruct i; discriminate.
  - destruct i as [|i]; simpl in H.
    + inversion H; subst. split; reflexivity.
    + apply (IH i H).
Qed.

Lemma strat_trade_ok_mono (rates : list Q) (et xt : Q) (k k' : nat) (t : DTrade.t) :
  (k <= k')%nat -> strat_trade_ok rates et xt k t -> strat_trade_ok rates et xt k' t.
Proof.
  intros Hk (e & x & Hx & Hrest). exists e, x. split; [lia | exact Hrest].
Qed.

Lemma strat_step_inv (rates : list Q) (et xt : Q) (st : DState) (i : nat) (r : Q) :
  strat_inv rates et xt st i -> nth i rates 0 = r ->
  strat_inv rates et xt (strat_step rates et xt st i r) (S i).
Proof.
  intros (Hopen & Htr & Hcnt) Hr. unfold strat_step, strat_inv.
  destruct (in_position st) eqn:Eo; simpl.
  - destruct (Hopen eq_refl) as [Hlt Hent].
    destruct (qltb xt r) eqn:Ex.
    + apply qltb_true_iff in Ex. split; [intros H; discriminate|]. split.
      * simpl. intros t Ht. apply in_app_or in Ht as [Ht | [<- | []]].
        -- apply (strat_trade_ok_mono _ _ _ i); [lia | exact (Htr t Ht)].
        -- exists (d_entry_idx st), i. simpl. split; [lia|].
           repeat split; try reflexivity; [exact Hent | rewrite Hr; exact Ex].
      * simpl. rewrite length_app. simpl. lia.
    + split; [intros _; split; [lia | exact Hent]|]. split.
      * intros t Ht. apply (strat_trade_ok_mono _ _ _ i); [lia | exact (Htr t Ht)].
      * rewrite ?Eo; simpl in *; lia.
  - destruct (qltb r et) eqn:Ee.
    + apply qltb_true_iff in Ee. simpl. split; [intros _; split; [lia | rewrite Hr; exact Ee]|].
      split.
      * intros t Ht. apply (strat_trade_ok_mono _ _ _ i); [lia | exact (Htr t Ht)].
      * rewrite ?Eo; simpl in *; lia.
    + split; [try rewrite Eo; intros H; discriminate|]. split.
      * intros t Ht. apply (strat_trade_ok_mono _ _ _ i); [lia | exact (Htr t Ht)].
      * rewrite ?Eo; simpl in *; lia.
Qed.

Lemma strat_loop_inv (rates : list Q) (et xt : Q) (rs : list Q) :
  forall (i : nat) (st : DState), skipn i rates = rs -> strat_inv rates et xt st i ->
  strat_inv rates et xt (strat_loop rates et xt rs i st) (i + length rs).
Proof.
  induction rs as [|r rest IH]; intros i st Hsk Hinv; simpl.
  - rewrite Nat.add_0_r. exact Hinv.
  - destruct (skipn_cons_nth_gen 0 rates i r rest Hsk) as [Hr Hsk'].
    replace (i + S (length rest))%nat with (S i + length rest)%nat by lia.
    apply IH; [exact Hsk'|]. apply strat_step_inv; assumption.
Qed.

Lemma strategy_trades_inv (rates : list Q) (et xt : Q) :
  (forall t, In t (strategy_trades rates et xt) -> strat_trade_ok rates et xt (length rates) t) /\
  (2 * length (strategy_trades rates et xt) <= length rates)%nat.
Proof.
  unfold strategy_trades.
  assert (H0 : strat_inv rates et xt dstate_init 0).
  { split; [intros H; discriminate|]. split; [intros t []|]. simpl. lia. }
  destruct (strat_loop_inv rates et xt rates 0 dstate_init eq_refl H0) as (_ & Htr & Hcnt).
  simpl in Htr, Hcnt. split; [exact Htr|]. lia.
Qed.

(** Every trade of a strategy over [rates] is entered at an index [e] whose
    rate is below the entry threshold and exited at a later index [x] whose
    rate is above the exit threshold; it lasts [x - e >= 1] periods of 8
    hours, collects the funding from [e] to [x] inclusive, costs
    [1.0 + 0.4 + 0.5 + 0.274 * periods] and has [pnl = funding - costs].
    Trades do not overlap, so there are at most half as many as rates. *)
Theorem strategy_trades_spec (rates : list Q) (et xt : Q) :
  (forall t, In t (strategy_trades rates et xt) -> strat_trade_ok rates et xt (length rates) t) /\
  (2 * length (strategy_trades rates et xt) <= length rates)%nat.
Proof. apply strategy_trades_inv. Qed.


Lemma pysum_qsum {A} (f : A -> Q) (l : list A) : pysum f l == qsum f l.
Proof.
  unfold pysum, qsum.
  assert (H : forall acc, fold_left (fun acc x => acc + f x) l acc
                          == acc + fold_right (fun x acc => f x + acc) 0 l).
  { induction l as [|x xs IH]; intros acc; simpl; [ring|]. rewrite IH. ring. }
  rewrite H. ring.
Qed.

Lemma qsum_sub {A} (f g h : A -> Q) (l : list A) :
  (forall x, In x l -> f x == g x - h x) -> qsum f l == qsum g l - qsum h l.
Proof.
  induction l as [|x xs IH]; intros H; simpl; [ring|].
  rewrite (H x (or_introl eq_refl)), IH by (intros y Hy; apply H; right; exact Hy). ring.
Qed.

Lemma qsum_lower {A} (c : Q) (f : A -> Q) (l : list A) :
  (forall x, In x l -> c <= f x) -> c * qlen l <= qsum f l.
Proof.
  unfold qlen. induction l as [|x xs IH]; intros H; simpl.
  - unfold qsum; simpl. rewrite Qmult_0_r. apply Qle_refl.
  - rewrite Nat2Z.inj_succ, <- Z.add_1_l, inject_Z_plus.
    assert (Hx : c <= f x) by (apply H; left; reflexivity).
    assert (Hxs : c * inject_Z (Z.of_nat (length xs)) <= qsum f xs)
      by (apply IH; intros y Hy; apply H; right; exact Hy).
    unfold qsum in *. simpl. change (inject_Z 1) with 1. lra.
Qed.

Lemma qlen_pos {A} (l : list A) : l <> [] -> 0 < qlen l.
Proof.
  intros H. destruct l as [|x xs]; [contradiction|]. unfold qlen, Qlt. simpl. lia.
Qed.

Lemma qlen_filter_le {A} (f : A -> bool) (l : list A) : qlen (List.filter f l) <= qlen l.
Proof.
  unfold qlen, Qle. simpl. rewrite !Z.mul_1_r. apply inj_le.
  induction l as [|x xs IH]; simpl; [lia|]. destruct (f x); simpl; lia.
Qed.

Lemma strategy_result_ok (rates : list Q) (et xt : Q) :
  rates <> [] -> exists r, strategy_result rates et xt = Ok r.
Proof.
  intros Hne. unfold strategy_result, pydiv.
  assert (Hd : ~ qlen rates / 3 / 30 == 0).
  { pose proof (qlen_pos rates Hne) as Hp. intros H.
    assert (Hq : qlen rates == qlen rates / 3 / 30 * 90) by field.
    rewrite H in Hq. lra. }
  rewrite (Qeq_bool_nonzero _ Hd). eexists. reflexivity.
Qed.

(** [simulate_realistic_strategy] raises [ZeroDivisionError] on an empty
    series ([trades_per_month] divides by [days / 30] before the [days > 0]
    guard of [annualized_return] is reached); on any other series it
    returns the three strategies [conservative], [moderate] and
    [aggressive], in this order. *)
Theorem simulate_realistic_strategy_domain (data : list Row.t) :
  (data = [] ->
   simulate_realistic_strategy data = Raise (PyExc "ZeroDivisionError" "float division by zero")) /\
  (data <> [] -> exists rs, simulate_realistic_strategy data = Ok rs /\
     map fst rs = ["conservative"; "moderate"; "aggressive"]%string).
Proof.
  split.
  - intros ->. vm_compute. reflexivity.
  - intros Hne. unfold simulate_realistic_strategy, strategies.
    assert (Hr : map Row.fundingRate data <> []) by (destruct data; [contradiction | discriminate]).
    destruct (strategy_result_ok _ (-15 # 10000) (-3 # 10000) Hr) as [r1 E1].
    destruct (strategy_result_ok _ (-10 # 10000) (-2 # 10000) Hr) as [r2 E2].
    destruct (strategy_result_ok _ (-5 # 10000) 0 Hr) as [r3 E3].
    simpl. rewrite E1, E2, E3. eexists. split; reflexivity.
Qed.

(** A strategy's summary: its P&L is its funding less its costs, its win
    rate lies between 0 and 100, its trade count is the number of trades,
    and with any trade the average hold is at least one 8-hour period. *)
Theorem strategy_result_spec (rates : list Q) (et xt : Q) (r : StratResult) :
  strategy_result rates et xt = Ok r ->
  sr_total_pnl r == sr_total_funding r - sr_total_costs r /\
  0 <= sr_win_rate r <= 100 /\
  sr_total_trades r = length (strategy_trades rates et xt) /\
  (sr_total_trades r <> 0%nat -> 8 <= avg_hold_hours r).
Proof.
  unfold strategy_result. intros H.
  destruct (pydiv _ _) as [pm|e]; [|discriminate]. injection H as <-. simpl.
  destruct (strategy_trades_inv rates et xt) as [Hok _].
  split.
  - rewrite !pysum_qsum. apply qsum_sub. intros t Ht.
    destruct (Hok t Ht) as (e & x & _ & _ & _ & _ & _ & Hp & _). rewrite Hp. reflexivity.
  - split; [|split; [reflexivity|]].
    + destruct (strategy_trades rates et xt) as [|t ts']; [split; lra|].
      assert (Hpos : 0 < qlen (t :: ts')) by (apply qlen_pos; discriminate).
      pose proof (qlen_filter_le (fun t => qltb 0 (DTrade.pnl t)) (t :: ts')) as Hle.
      assert (H0 : 0 <= qlen (List.filter (fun t => qltb 0 (DTrade.pnl t)) (t :: ts')))
        by (unfold qlen, Qle; simpl; lia).
      split.
      * apply Qmult_le_0_compat; [|lra]. apply Qle_shift_div_l; [exact Hpos | lra].
      * assert (Hd : qlen (List.filter (fun t => qltb 0 (DTrade.pnl t)) (t :: ts')) / qlen (t :: ts') <= 1)
          by (apply Qle_shift_div_r; [exact Hpos | lra]).
        lra.
    + intros Hn. destruct (strategy_trades rates et xt) as [|t ts']; [contradiction|].
      assert (Hpos : 0 < qlen (t :: ts')) by (apply qlen_pos; discriminate).
      apply Qle_shift_div_l; [exact Hpos|]. rewrite pysum_qsum.
      apply qsum_lower. intros t' Ht'.
      destruct (Hok t' Ht') as (e & x & Hx & Hper & Hh & _).
      rewrite Hh, Hper. unfold Qle. simpl. lia.
Qed.


Lemma qsum_upper {A} (c : Q) (f : A -> Q) (l : list A) :
  (forall x, In x l -> f x <= c) -> qsum f l <= c * qlen l.
Proof.
  unfold qlen. induction l as [|x xs IH]; intros H; simpl.
  - unfold qsum; simpl. rewrite Qmult_0_r. apply Qle_refl.
  - rewrite Nat2Z.inj_succ, <- Z.add_1_l, inject_Z_plus.
    assert (Hx : f x <= c) by (apply H; left; reflexivity).
    assert (Hxs : qsum f xs <= c * inject_Z (Z.of_nat (length xs)))
      by (apply IH; intros y Hy; apply H; right; exact Hy).
    unfold qsum in *. simpl. change (inject_Z 1) with 1. lra.
Qed.

Lemma collect_In (config : Config) (now : string) (rates : list RateData.t) (o : Opportunity.t) :
  In o (collect config now rates) <->
  exists rd, In rd rates /\ calculate_opportunity config now rd = Some o /\
             min_net_yield_pct (trading config) <= key o.
Proof.
  induction rates as [|rd rs IH]; simpl.
  - split; [contradiction|]. intros (rd & [] & _).
  - destruct (calculate_opportunity config now rd) as [o'|] eqn:Ec.
    + destruct (Qle_bool (min_net_yield_pct (trading config)) (Opportunity.net_yield_annualized o')) eqn:Eq.
      * simpl. rewrite IH. split.
        -- intros [<-|(r & Hr & Hc & Hk)].
           ++ exists rd. split; [left; reflexivity|]. split; [exact Ec|].
              apply Qle_bool_iff, Eq.
           ++ exists r. auto.
        -- intros (r & [<-|Hr] & Hc & Hk); [left; congruence|right; exists r; auto].
      * rewrite IH. split.
        -- intros (r & Hr & Hc & Hk). exists r. auto.
        -- intros (r & [<-|Hr] & Hc & Hk); [|exists r; auto].
           exfalso. rewrite Ec in Hc. injection Hc as <-.
           apply Qle_bool_iff in Hk. unfold key in Hk. congruence.
    + rewrite IH. split.
      * intros (r & Hr & Hc & Hk). exists r. auto.
      * intros (r & [<-|Hr] & Hc & Hk); [congruence|exists r; auto].
Qed.

Lemma calculate_opportunity_some (config : Config) (now : string) (rd : RateData.t) (o : Opportunity.t) :
  calculate_opportunity config now rd = Some o ->
  RateData.rate rd < 0 /\ is_whitelisted config (RateData.symbol rd) = true /\
  RateData.rate rd <= min_funding_rate (trading config) /\
  calculate_opportunity config now rd =
    let '(maker_fee, taker_fee) := get_fees config (RateData.exchange rd) in
    let r := RateData.rate rd in
    let sym := RateData.symbol rd in
    let ec := 2 * taker_fee in
    let xc := 2 * maker_fee in
    let sc := slippage_estimate (costs config) * 2 in
    let bc := default_borrow_apr (costs config) / (3 * 365) in
    let ny := - r - bc - (ec + xc + sc) / 3 in
    Some (Opportunity.mk (RateData.exchange rd) sym (extract_base_asset sym) r
            (r * 3 * 365 * 100) ec xc sc bc ny (ny * 3 * 365 * 100)
            (if py_in (extract_base_asset sym) major_assets then 9 # 10 else 1 # 2) now).
Proof.
  intros Hc.
  assert (Hneg : RateData.rate rd < 0).
  { unfold calculate_opportunity in Hc. destruct (Qle_bool 0 (RateData.rate rd)) eqn:E; [discriminate|].
    apply Qnot_le_lt. intros Hle. apply Qle_bool_iff in Hle. congruence. }
  assert (Hw : is_whitelisted config (RateData.symbol rd) = true).
  { unfold calculate_opportunity in Hc. destruct (Qle_bool 0 (RateData.rate rd)); [discriminate|].
    destruct (is_whitelisted config (RateData.symbol rd)); [reflexivity|discriminate]. }
  assert (Hmin : RateData.rate rd <= min_funding_rate (trading config)).
  { unfold calculate_opportunity in Hc. destruct (Qle_bool 0 (RateData.rate rd)); [discriminate|].
    rewrite Hw in Hc. simpl in Hc.
    destruct (Qle_bool (RateData.rate rd) (min_funding_rate (trading config))) eqn:E;
      [apply Qle_bool_iff, E|discriminate]. }
  split; [exact Hneg|]. split; [exact Hw|]. split; [exact Hmin|].
  apply calculate_opportunity_passes; assumption.
Qed.

Lemma score_all_In (config : Config) (now : string) (rates : list RateData.t)
    (o : Opportunity.t) :
  In o (score_all config now rates) <->
  exists rd, In rd rates /\ calculate_opportunity config now rd = Some o /\
    min_net_yield_pct (trading config) <= Opportunity.net_yield_annualized o /\
    RateData.rate rd < 0 /\ is_whitelisted config (RateData.symbol rd) = true /\
    RateData.rate rd <= min_funding_rate (trading config) /\
    Opportunity.exchange o = RateData.exchange rd /\ Opportunity.symbol o = RateData.symbol rd /\
    Opportunity.funding_rate o = RateData.rate rd /\
    Opportunity.base_asset o = extract_base_asset (RateData.symbol rd) /\
    Opportunity.timestamp o = now.
Proof.
  unfold score_all. split.
  - intros Hin. apply (Permutation_in _ (sort_desc_perm _)), collect_In in Hin.
    destruct Hin as (rd & Hr & Hc & Hk). exists rd. split; [exact Hr|]. split; [exact Hc|].
    split; [exact Hk|].
    destruct (calculate_opportunity_some config now rd o Hc) as (Hneg & Hw & Hmin & Heq).
    do 3 (split; [assumption|]).
    rewrite Heq in Hc. destruct (get_fees config (RateData.exchange rd)).
    injection Hc as <-. simpl. repeat split.
  - intros (rd & Hr & Hc & Hk & _).
    apply (Permutation_in _ (Permutation_sym (sort_desc_perm _))), collect_In.
    exists rd. auto.
Qed.

(** [score_all] keeps exactly the opportunities of [calculate_opportunity]
    whose annualized net yield reaches [min_net_yield_pct]; each of them
    comes from an input observation with a negative rate, a whitelisted
    base asset and a rate at most [min_funding_rate], keeps that
    observation's exchange, symbol and rate, and is stamped with [now]. *)
Theorem score_all_members (config : Config) (now : string) (rates : list RateData.t)
    (o : Opportunity.t) :
  In o (score_all config now rates) <->
  exists rd, In rd rates /\ calculate_opportunity config now rd = Some o /\
    min_net_yield_pct (trading config) <= Opportunity.net_yield_annualized o /\
    RateData.rate rd < 0 /\ is_whitelisted config (RateData.symbol rd) = true /\
    RateData.rate rd <= min_funding_rate (trading config) /\
    Opportunity.exchange o = RateData.exchange rd /\ Opportunity.symbol o = RateData.symbol rd /\
    Opportunity.funding_rate o = RateData.rate rd /\
    Opportunity.base_asset o = extract_base_asset (RateData.symbol rd) /\
    Opportunity.timestamp o = now.
Proof. apply score_all_In. Qed.

(** The annualized net yield of a passing observation reaches
    [min_net_yield_pct] exactly when its rate is at most the venue's
    break-even rate: minus the borrow cost per period, the amortized entry,
    exit and slippage costs and [min_net_yield_pct] per period. *)
Theorem score_all_single_threshold (config : Config) (now : string) (rd : RateData.t) :
  RateData.rate rd < 0 ->
  is_whitelisted config (RateData.symbol rd) = true ->
  RateData.rate rd <= min_funding_rate (trading config) ->
  (score_all config now [rd] <> [] <->
   RateData.rate rd <=
     - (default_borrow_apr (costs config) / (3 * 365)
        + (2 * snd (get_fees config (RateData.exchange rd))
           + 2 * fst (get_fees config (RateData.exchange rd))
           + slippage_estimate (costs config) * 2) / 3)
     - min_net_yield_pct (trading config) / (3 * 365 * 100)).
Proof.
  intros Hneg Hw Hmin.
  assert (Hiff : score_all config now [rd] <> [] <->
                 exists o, calculate_opportunity config now rd = Some o /\
                   min_net_yield_pct (trading config) <= key o).
  { split.
    - intros Hne. destruct (score_all config now [rd]) as [|o os] eqn:E; [contradiction|].
      assert (Ho : In o (score_all config now [rd])) by (rewrite E; left; reflexivity).
      apply (Permutation_in _ (sort_desc_perm _)), collect_In in Ho.
      destruct Ho as (r & [<-|[]] & Hc & Hk). exists o. auto.
    - intros (o & Hc & Hk) E.
      assert (Ho : In o (collect config now [rd])) by (apply collect_In; exists rd; simpl; auto).
      apply (Permutation_in _ (Permutation_sym (sort_desc_perm _))) in Ho.
      unfold score_all in E. rewrite E in Ho. contradiction. }
  rewrite Hiff. rewrite (calculate_opportunity_passes config now rd Hneg Hw Hmin).
  destruct (get_fees config (RateData.exchange rd)) as [maker taker]. simpl. unfold key. simpl.
  set (r := RateData.rate rd). set (m := min_net_yield_pct (trading config)).
  set (c := default_borrow_apr (costs config) / (3 * 365)
            + (2 * taker + 2 * maker + slippage_estimate (costs config) * 2) / 3).
  assert (E1 : (- r - default_borrow_apr (costs config) / (3 * 365)
                - (2 * taker + 2 * maker + slippage_estimate (costs config) * 2) / 3) * 3 * 365 * 100
               == (- r - c) * 109500) by (unfold c; ring).
  assert (E2 : - c - m / (3 * 365 * 100) == - c - m / 109500) by reflexivity.
  assert (E3 : (- c - m / 109500) * 109500 == - c * 109500 - m) by (field; discriminate).
  rewrite E2. split.
  - intros (o & Ho & Hk). injection Ho as <-. simpl in Hk. rewrite E1 in Hk.
    apply (Qmult_le_r _ _ 109500); [reflexivity|]. rewrite E3. lra.
  - intros Hle. eexists. split; [reflexivity|]. simpl. rewrite E1.
    apply (Qmult_le_r _ _ 109500) in Hle; [|reflexivity]. rewrite E3 in Hle. lra.
Qed.

Lemma Sorted_desc_head (o : Opportunity.t) (os : list Opportunity.t) :
  Sorted yield_desc (o :: os) -> forall x, In x (o :: os) -> key x <= key o.
Proof.
  intros Hs. apply Sorted_StronglySorted in Hs.
  - intros x [<-|Hx]; [apply Qle_refl|].
    apply StronglySorted_inv in Hs as [_ Hall]. rewrite List.Forall_forall in Hall.
    exact (Hall x Hx).
  - intros a b c Hab Hbc. unfold yield_desc in *. eapply Qle_trans; eassumption.
Qed.

(** The summary of [OpportunityScorer.main]: on a non-empty scored list,
    [best] is the first opportunity, no opportunity has a higher net yield,
    and [avg_yield] lies between [min_net_yield_pct] and the best yield. *)
Theorem scorer_summary_bounds (config : Config) (now : string) (rates : list RateData.t)
    (best : Opportunity.t) (avg : Q) :
  scorer_summary (score_all config now rates) = Some (best, avg) ->
  In best (score_all config now rates) /\
  (forall o, In o (score_all config now rates) ->
     Opportunity.net_yield_annualized o <= Opportunity.net_yield_annualized best) /\
  min_net_yield_pct (trading config) <= avg /\ avg <= Opportunity.net_yield_annualized best.
Proof.
  intros Hs. pose proof (sort_desc_sorted (collect config now rates)) as Hsort.
  unfold scorer_summary in Hs. fold (score_all config now rates) in Hsort.
  destruct (score_all config now rates) as [|o os] eqn:E; [discriminate|].
  injection Hs as <- <-.
  assert (Hmax : forall x, In x (o :: os) -> key x <= key o) by (apply Sorted_desc_head, Hsort).
  assert (Hmin : forall x, In x (o :: os) -> min_net_yield_pct (trading config) <= key x).
  { intros x Hx. rewrite <- E in Hx. apply score_all_In in Hx.
    destruct Hx as (rd & _ & _ & Hk & _). exact Hk. }
  assert (Hpos : 0 < qlen (o :: os)) by (apply qlen_pos; discriminate).
  split; [left; reflexivity|]. split; [exact Hmax|]. split.
  - apply Qle_shift_div_l; [exact Hpos|]. rewrite pysum_qsum.
    apply qsum_lower. exact Hmin.
  - apply Qle_shift_div_r; [exact Hpos|]. rewrite pysum_qsum.
    apply qsum_upper. exact Hmax.
Qed.


Lemma inject_nat_sub_succ (i e : nat) :
  (e < i)%nat -> inject_Z (Z.of_nat (i - e)) == inject_Z (Z.of_nat (i - 1 - e)) + 1.
Proof.
  intros H. replace (i - e)%nat with (S (i - 1 - e)) by lia.
  rewrite Nat2Z.inj_succ, <- Z.add_1_r, inject_Z_plus. reflexivity.
Qed.

Lemma skipn_cons_row (df : list Row.t) (i : nat) (row : Row.t) (rest : list Row.t) :
  skipn i df = row :: rest -> nth i df row_default = row /\ skipn (S i) df = rest.
Proof.
  revert i. induction df as [|d ds IH]; intros i H.
  - destruct i; discriminate.
  - destruct i as [|i]; simpl in H.
    + inversion H; subst. split; reflexivity.
    + apply (IH i H).
Qed.

Lemma bt_trade_ok_mono (config : BacktestConfig) (df : list Row.t) (k k' : nat) (t : Trade.t) :
  (k <= k')%nat -> bt_trade_ok config df k t -> bt_trade_ok config df k' t.
Proof.
  intros Hk (e & x & Hx & Hrest). exists e, x. split; [lia | exact Hrest].
Qed.

Lemma step_bt_inv (config : BacktestConfig) (df : list Row.t) (s s1 : SimState)
  (i : nat) (row : Row.t) :
  bt_inv config df s i -> nth i df row_default = row ->
  step config df s i row = Ok s1 -> bt_inv config df s1 (S i).
Proof.
  intros (Hopen & Htr & Hpnl & Hcost & Hcnt) Hrow Hs.
  assert (Hrate : rate_at df i = Row.fundingRate row) by (unfold rate_at; rewrite Hrow; reflexivity).
  assert (Htime : time_at df i = Row.fundingTime row) by (unfold time_at; rewrite Hrow; reflexivity).
  unfold step in Hs. unfold bt_inv.
  destruct (position_open s) eqn:Eo; simpl in Hs.
  - destruct (Hopen eq_refl) as (Hlt & Her & Hent).
    pose proof (inject_nat_sub_succ i (entry_idx s) Hlt) as Hsub.
    destruct (qltb (exit_threshold config) (Row.fundingRate row)) eqn:Ex.
    + apply qltb_true_iff in Ex.
      inversion Hs; subst; clear Hs. simpl.
      split; [intros H; discriminate|]. split.
      * intros t Ht. apply in_app_or in Ht as [Ht | [<- | []]].
        -- apply (bt_trade_ok_mono _ _ i); [lia | exact (Htr t Ht)].
        -- exists (entry_idx s), i. simpl. split; [lia|].
           split; [reflexivity|]. split; [reflexivity|]. split; [symmetry; exact Htime|].
           split; [exact Her|]. split; [exact Hent|]. split; [rewrite Hrate; exact Ex|].
           repeat split; reflexivity.
      * split; [rewrite qsum_snoc, Hpnl; reflexivity|]. split.
        -- rewrite qsum_snoc. simpl. rewrite Hcost. simpl. rewrite Hsub. ring.
        -- rewrite length_app. simpl. lia.
    + inversion Hs; subst; clear Hs. simpl.
      split; [intros _; split; [lia | split; assumption]|]. split.
      * intros t Ht. apply (bt_trade_ok_mono _ _ i); [lia | exact (Htr t Ht)].
      * split; [exact Hpnl|]. split; [|lia].
        rewrite Hcost. simpl. replace (i - 0 - entry_idx s)%nat with (i - entry_idx s)%nat by lia.
        rewrite Hsub. ring.
  - destruct (qltb (Row.fundingRate row) (entry_threshold config)) eqn:Ee;
      inversion Hs; subst; clear Hs.
    + apply qltb_true_iff in Ee. simpl.
      split; [intros _; split; [lia | rewrite Hrate; split; [reflexivity | exact Ee]]|]. split.
      * intros t Ht. apply (bt_trade_ok_mono _ _ i); [lia | exact (Htr t Ht)].
      * split; [exact Hpnl|]. split; [|lia].
        rewrite Hcost. replace (i - 0 - i)%nat with 0%nat by lia. simpl. ring.
    + split; [rewrite Eo; intros H; discriminate|]. split.
      * intros t Ht. apply (bt_trade_ok_mono _ _ i); [lia | exact (Htr t Ht)].
      * rewrite ?Eo in *. split; [exact Hpnl|]. split; [exact Hcost|]. lia.
Qed.

Lemma loop_bt_inv (config : BacktestConfig) (df rows : list Row.t) :
  forall (i : nat) (s st : SimState),
  skipn i df = rows -> bt_inv config df s i ->
  loop config df rows i s = Ok st -> bt_inv config df st (i + length rows).
Proof.
  induction rows as [|row rest IH]; intros i s st Hsk Hinv Hl; simpl in Hl.
  - inversion Hl; subst. rewrite Nat.add_0_r. exact Hinv.
  - destruct (step config df s i row) as [s1|e] eqn:Es; [|discriminate].
    destruct (skipn_cons_row df i row rest Hsk) as [Hrow Hsk'].
    pose proof (step_bt_inv config df s s1 i row Hinv Hrow Es) as Hinv1.
    simpl. replace (i + S (length rest))%nat with (S i + length rest)%nat by lia.
    exact (IH (S i) s1 st Hsk' Hinv1 Hl).
Qed.

Lemma bt_inv_init (config : BacktestConfig) (df : list Row.t) : bt_inv config df sim_init 0.
Proof.
  split; [intros H; discriminate|]. split; [intros t []|].
  split; [reflexivity|]. split; [reflexivity|]. simpl. lia.
Qed.

Lemma simulate_inv (config : BacktestConfig) (df : list Row.t) (st : SimState) :
  simulate config df = Ok st ->
  (forall t, In t (trades st) -> bt_trade_ok config df (length df) t) /\
  total_pnl st == qsum Trade.pnl (trades st) /\
  total_costs st == qsum Trade.costs (trades st)
    + (if position_open st
       then (entry_cost config + slippage config) * position_size config
            + borrow_rate_8h config * position_size config
              * inject_Z (Z.of_nat (length df - 1 - entry_idx st))
       else 0) /\
  (2 * length (trades st) <= length df)%nat.
Proof.
  intros Hs. unfold simulate in Hs.
  destruct (loop_bt_inv config df df 0 sim_init st eq_refl (bt_inv_init config df) Hs)
    as (_ & Htr & Hpnl & Hcost & Hcnt).
  simpl in Htr, Hcost, Hcnt. split; [exact Htr|]. split; [exact Hpnl|]. split; [exact Hcost|].
  lia.
Qed.

(** Every trade of the backtest loop is entered at an index [e] whose
    rate is below [entry_threshold] and exited at a later index [x] whose
    rate is above [exit_threshold]; it records the funding times of [e] and
    [x], [periods = x - e], costs of
    [(entry + exit + slippage) * size + borrow * size * periods],
    [pnl = funding_collected - costs] and [pnl_pct = pnl / size * 100] in
    numpy's arithmetic ([inf], [-inf] or [nan] for a zero size).
    [total_pnl] is the sum of the trades' P&L; [total_costs] is the sum of
    the trades' costs plus, for a position still open at the end, its entry
    costs and the borrow cost of its periods after entry. Trades do not
    overlap: at most half as many as rows. *)
Theorem simulate_bookkeeping (config : BacktestConfig) (df : list Row.t) :
  exists st, simulate config df = Ok st /\
  (forall t, In t (trades st) -> bt_trade_ok config df (length df) t) /\
  total_pnl st == qsum Trade.pnl (trades st) /\
  total_costs st == qsum Trade.costs (trades st)
    + (if position_open st
       then (entry_cost config + slippage config) * position_size config
            + borrow_rate_8h config * position_size config
              * inject_Z (Z.of_nat (length df - 1 - entry_idx st))
       else 0) /\
  (2 * length (trades st) <= length df)%nat.
Proof.
  destruct (simulate_total config df) as [st Hs].
  exists st. split; [exact Hs|]. apply simulate_inv, Hs.
Qed.



Lemma insert_by_time_sorted (r : Row.t) (l : list Row.t) :
  Sorted time_le l -> Sorted time_le (insert_by_time r l).
Proof.
  induction l as [|y ys IH]; simpl; intros Hs.
  - repeat constructor.
  - destruct (Z.leb (Row.fundingTime r) (Row.fundingTime y)) eqn:E.
    + constructor; [exact Hs|]. constructor. unfold time_le. apply Z.leb_le, E.
    + apply Sorted_inv in Hs as [Hys Hhd]. constructor; [exact (IH Hys)|].
      apply Z.leb_gt in E.
      destruct ys as [|z zs]; simpl; [constructor; unfold time_le; lia|].
      destruct (Z.leb (Row.fundingTime r) (Row.fundingTime z)); constructor;
        [unfold time_le; lia|]. inversion Hhd; assumption.
Qed.

Lemma sort_by_time_sorted (l : list Row.t) : Sorted time_le (sort_by_time l).
Proof.
  induction l as [|r rs IH]; simpl; [constructor|]. apply insert_by_time_sorted, IH.
Qed.

Lemma sorted_time_at (df : list Row.t) (i j : nat) :
  Sorted time_le df -> (i <= j < length df)%nat -> (time_at df i <= time_at df j)%Z.
Proof.
  intros Hs. apply Sorted_StronglySorted in Hs;
    [|intros a b c; unfold time_le; lia].
  revert i j. induction df as [|r rs IH]; intros i j Hij; simpl in Hij; [lia|].
  apply StronglySorted_inv in Hs as [Hrs Hall]. rewrite List.Forall_forall in Hall.
  unfold time_at. destruct i as [|i], j as [|j]; simpl; try lia.
  - apply Hall, nth_In. lia.
  - apply (IH Hrs i j). lia.
Qed.

(** The whole days between the first and the last record of the sorted
    frame are not negative. *)
Lemma frame_days_nonneg (first : Row.t) (rest : list Row.t) :
  (0 <= Z.div (time_at (sort_by_time (first :: rest)) (length (sort_by_time (first :: rest)) - 1)
               - time_at (sort_by_time (first :: rest)) 0) ms_per_day)%Z.
Proof.
  pose proof (sort_by_time_sorted (first :: rest)) as Hsorted.
  pose proof (Permutation_length (sort_by_time_perm (first :: rest))) as Hlen.
  unfold ms_per_day. apply Z.div_pos; [|lia].
  assert (Ht : (time_at (sort_by_time (first :: rest)) 0
                <= time_at (sort_by_time (first :: rest))
                     (length (sort_by_time (first :: rest)) - 1))%Z)
    by (apply sorted_time_at; [exact Hsorted | rewrite Hlen; simpl; lia]).
  lia.
Qed.

Lemma np_mul_pos (x : f64) (c : Q) :
  0 < c -> np_mul x c = match x with F64 q => F64 (q * c) | y => y end.
Proof.
  intros Hc. assert (E : qltb 0 c = true) by (apply qltb_true_iff; exact Hc).
  destruct x; simpl; rewrite ?E; reflexivity.
Qed.

(** On these records [run_backtest] raises exactly when the input is not
    empty, [position_size] is zero and no trade completed: then
    [annualized_return] divides the int [0] by zero and raises
    [ZeroDivisionError]. Otherwise it returns, and a report's
    [annualized_return] is [(total_pnl / position_size) * (365 / days) * 100]
    in numpy's arithmetic: with a zero [position_size] and a completed
    trade it is [inf], [-inf] or [nan] by the sign of [total_pnl]. *)
Theorem run_backtest_raises_iff (data : list Row.t) (config : BacktestConfig) :
  exists st, simulate config (sort_by_time data) = Ok st /\
  (forall e, run_backtest data config = Raise e <->
     e = PyExc "ZeroDivisionError" "float division by zero" /\ data <> [] /\
     position_size config == 0 /\ trades st = []) /\
  (data <> [] -> ~ (position_size config == 0 /\ trades st = []) ->
     exists r, run_backtest data config = Ok (Report r) /\
       annualized_return r =
       np_mul (np_mul (np_div (total_pnl st) (position_size config))
                      (365 / inject_Z (period_days r))) 100) /\
  (position_size config == 0 -> trades st <> [] ->
     exists r, run_backtest data config = Ok (Report r) /\
       annualized_return r = if qltb 0 (total_pnl st) then PosInf
                             else if qltb (total_pnl st) 0 then NegInf else NaN).
Proof.
  destruct (simulate_total config (sort_by_time data)) as [st Es].
  exists st. split; [exact Es|].
  destruct data as [|first rest].
  - simpl in Es. injection Es as <-. simpl.
    split; [|split].
    + intros e. split; [discriminate|]. intros (_ & H & _). contradiction H. reflexivity.
    + intros H. contradiction H. reflexivity.
    + intros _ H. contradiction H. reflexivity.
  - pose proof (frame_days_nonneg first rest) as Hd.
    unfold run_backtest. rewrite Es. cbv beta iota zeta.
    set (d := Z.div _ ms_per_day) in *.
    assert (Hdays : (1 <= (if Z.eqb d 0 then 1 else d))%Z)
      by (destruct (Z.eqb d 0) eqn:E0; [lia | apply Z.eqb_neq in E0; lia]).
    set (days := if Z.eqb d 0 then 1%Z else d) in *.
    destruct (Z.eqb days 0) eqn:Ez; [apply Z.eqb_eq in Ez; lia|].
    assert (Hc : 0 < 365 / inject_Z days).
    { apply Qlt_shift_div_l; [unfold Qlt; simpl; lia | lra]. }
    split; [|split].
    + intros e. destruct (trades st) as [|t ts] eqn:Et.
      * unfold pydiv. destruct (Qeq_bool (position_size config) 0) eqn:Eq.
        -- apply Qeq_bool_iff in Eq. split.
           ++ intros H. injection H as <-. repeat split; [discriminate | exact Eq].
           ++ intros (-> & _). reflexivity.
        -- split; [discriminate|]. intros (_ & _ & H & _).
           apply Qeq_bool_iff in H. congruence.
      * split; [discriminate|]. intros (_ & _ & _ & H). discriminate.
    + intros _ Hn. destruct (trades st) as [|t ts] eqn:Et.
      * assert (Hps : ~ position_size config == 0) by tauto.
        unfold pydiv, np_div. rewrite (Qeq_bool_nonzero _ Hps).
        eexists. split; reflexivity.
      * eexists. split; reflexivity.
    + intros Hps Hn. destruct (trades st) as [|t ts]; [contradiction Hn; reflexivity|].
      eexists. split; [reflexivity|]. simpl.
      rewrite (np_mul_pos _ 100) by lra. rewrite (np_mul_pos _ _ Hc).
      unfold np_div. rewrite (proj2 (Qeq_bool_iff _ _) Hps).
      destruct (qltb 0 (total_pnl st)); [reflexivity|].
      destruct (qltb (total_pnl st) 0); reflexivity.
Qed.

Lemma In_skipn {A} (n : nat) (l : list A) (x : A) : In x (skipn n l) -> In x l.
Proof.
  intros H. rewrite <- (firstn_skipn n l). apply in_or_app. right. exact H.
Qed.

(** A backtest report: [data_points] is the number of input records,
    [period_days] is at least 1 (the frame is sorted by time), there are at
    most half as many trades as records, the win rate lies between 0 and
    100, the report lists the last [min 10 total_trades] trades, each a
    trade of the loop that exits no earlier than it enters, and with any
    trade the average hold is at least one period and [pnl_per_trade]
    times the trade count is [total_pnl]. *)
Theorem run_backtest_report (data : list Row.t) (config : BacktestConfig) (r : BacktestReport) :
  run_backtest data config = Ok (Report r) ->
  data_points r = length data /\
  (1 <= period_days r)%Z /\
  (2 * total_trades r <= length data)%nat /\
  0 <= win_rate r <= 100 /\
  length (report_trades r) = Nat.min 10 (total_trades r) /\
  (forall t, In t (report_trades r) ->
     bt_trade_ok config (sort_by_time data) (length data) t /\
     (Trade.entry_time t <= Trade.exit_time t)%Z) /\
  (total_trades r <> 0%nat ->
     1 <= avg_hold_periods r /\
     pnl_per_trade r * inject_Z (Z.of_nat (total_trades r)) == report_total_pnl r).
Proof.
  intros H. unfold run_backtest in H.
  destruct data as [|first rest]; [discriminate|].
  pose proof (sort_by_time_sorted (first :: rest)) as Hsorted.
  pose proof (Permutation_length (sort_by_time_perm (first :: rest))) as Hlen.
  set (df := sort_by_time (first :: rest)) in *.
  destruct (simulate config df) as [st|e] eqn:Es; [|discriminate].
  destruct (simulate_inv config df st Es) as (Htr & Hpnl & _ & Hcnt).
  cbv zeta in H.
  set (d := Z.div (time_at df (length df - 1) - time_at df 0) ms_per_day) in *.
  assert (Hd : (0 <= d)%Z).
  { unfold d, ms_per_day. apply Z.div_pos; [|lia].
    assert (Ht : (time_at df 0 <= time_at df (length df - 1))%Z)
      by (apply sorted_time_at; [exact Hsorted | rewrite Hlen; simpl; lia]).
    lia. }
  destruct (Z.eqb (if Z.eqb d 0 then 1%Z else d) 0) eqn:Ez.
  { exfalso. destruct (Z.eqb d 0) eqn:E0; [discriminate|congruence]. }
  lazymatch type of H with
  | (match ?a with Ok _ => _ | Raise _ => _ end) = _ => destruct a as [ann|e]; [|discriminate]
  end.
  injection H as <-. cbn -[Nat.min]. simpl in Hlen.
  split; [exact Hlen|]. split; [destruct (Z.eqb d 0) eqn:E0; [lia|]; apply Z.eqb_neq in E0; lia|].
  split; [rewrite <- Hlen; exact Hcnt|].
  split.
  - destruct (trades st) as [|t ts']; [split; lra|].
    assert (Hpos : 0 < qlen (t :: ts')) by (apply qlen_pos; discriminate).
    pose proof (qlen_filter_le (fun t => qltb 0 (Trade.pnl t)) (t :: ts')) as Hle.
    assert (H0 : 0 <= qlen (List.filter (fun t => qltb 0 (Trade.pnl t)) (t :: ts')))
      by (unfold qlen, Qle; simpl; lia).
    split.
    + apply Qmult_le_0_compat; [|lra]. apply Qle_shift_div_l; [exact Hpos | lra].
    + assert (Hq : qlen (List.filter (fun t => qltb 0 (Trade.pnl t)) (t :: ts')) / qlen (t :: ts') <= 1)
        by (apply Qle_shift_div_r; [exact Hpos | lra]).
      lra.
  - split; [rewrite length_skipn; lia|]. split.
    + intros t Ht. apply In_skipn in Ht. rewrite <- Hlen.
      pose proof (Htr t Ht) as Hok. split; [exact Hok|].
      destruct Hok as (e & x & Hx & _ & He & Hx' & _). rewrite He, Hx'.
      apply sorted_time_at; [exact Hsorted | lia].
    + intros Hn. destruct (trades st) as [|t ts'] eqn:Et; [contradiction|].
      assert (Hpos : 0 < qlen (t :: ts')) by (apply qlen_pos; discriminate).
      split.
      * apply Qle_shift_div_l; [exact Hpos|].
        assert (Hs : fold_left (fun acc t => acc + inject_Z (Z.of_nat (Trade.periods t))) (t :: ts') 0
                     = pysum (fun t => inject_Z (Z.of_nat (Trade.periods t))) (t :: ts'))
          by reflexivity.
        rewrite Hs, pysum_qsum. apply qsum_lower. intros t' Ht'.
        destruct (Htr t' Ht') as (e & x & Hx & Hper & _). rewrite Hper.
        unfold Qle. simpl. lia.
      * unfold qlen. change (inject_Z (Z.of_nat (length (t :: ts'))))
          with (qlen (t :: ts')). field. intros Hz. rewrite Hz in Hpos. discriminate.
Qed.


Lemma open_position_raise_state (le se sym base : string) (su fr now : Q) (s s' : ExecState)
  (e : exn) :
  open_position le se sym base su fr now s = (Raise e, s') -> s' = s.
Proof.
  unfold open_position, m_bind, m_get, m_lift, m_put, m_ret, dict_get.
  destruct (clients s !! le) as [lc|]; [|intros H; injection H as _ <-; reflexivity].
  destruct (clients s !! se) as [sc|]; [|intros H; injection H as _ <-; reflexivity].
  destruct (gather2 _ _) as [[lr sr]|e']; [discriminate|].
  intros H; injection H as _ <-; reflexivity.
Qed.

Lemma close_position_raise_state (pos_id : string) (s s' : ExecState) (e : exn) :
  close_position pos_id s = (Raise e, s') -> s' = s.
Proof.
  unfold close_position, m_bind, m_get, m_lift, m_put, m_ret, m_raise, dict_get.
  destruct (active_positions s !! pos_id) as [l|]; [|intros H; injection H as _ <-; reflexivity].
  cbv beta iota.
  destruct (heap s !! l) as [pos|]; [|intros H; injection H as _ <-; reflexivity].
  cbv beta iota.
  destruct (clients s !! _) as [lc|]; [|intros H; injection H as _ <-; reflexivity].
  destruct (clients s !! _) as [sc|]; [|intros H; injection H as _ <-; reflexivity].
  destruct (gather2 _ _) as [r|e']; [discriminate|].
  intros H; injection H as _ <-; reflexivity.
Qed.

Lemma open_position_ok_state (le se sym base : string) (su fr now : Q) (s s' : ExecState)
  (l : loc) :
  open_position le se sym base su fr now s = (Ok l, s') ->
  l = next_loc s /\ exists p,
    s' = with_heap s (<[l := p]> (heap s)) (<[ArbPosition.id p := l]> (active_positions s))
           (Pos.succ l) /\
    ArbPosition.id p = ("arb_" +:+ pretty (Qfloor now))%string /\
    ArbPosition.status p = "open"%string /\
    Position.exchange (ArbPosition.long_leg p) = le /\
    Position.exchange (ArbPosition.short_leg p) = se /\
    ArbPosition.total_funding_collected p = 0 /\ ArbPosition.total_pnl p = 0.
Proof.
  unfold open_position, m_bind, m_get, m_lift, m_put, m_ret, dict_get.
  destruct (clients s !! le) as [lc|]; [|discriminate].
  destruct (clients s !! se) as [sc|]; [|discriminate].
  destruct (gather2 _ _) as [[lr sr]|e']; [|discriminate].
  simpl. intros H. injection H as <- <-. split; [reflexivity|].
  lazymatch goal with
  | |- exists p, with_heap _ (<[_ := ?q]> _) _ _ = _ /\ _ => exists q
  end.
  split; [reflexivity|]. repeat split.
Qed.

Lemma close_position_ok_state (pos_id : string) (s s' : ExecState) (r : Summary.t) :
  close_position pos_id s = (Ok r, s') ->
  exists l pos, active_positions s !! pos_id = Some l /\ heap s !! l = Some pos /\
    s' = with_heap s (<[l := ArbPosition.set_status pos "closed"]> (heap s))
           (delete pos_id (active_positions s)) (next_loc s).
Proof.
  unfold close_position, m_bind, m_get, m_lift, m_put, m_ret, m_raise, dict_get.
  destruct (active_positions s !! pos_id) as [l|] eqn:El; [|discriminate].
  cbv beta iota.
  destruct (heap s !! l) as [pos|] eqn:Eh; [|discriminate].
  cbv beta iota.
  destruct (clients s !! _) as [lc|]; [|discriminate].
  destruct (clients s !! _) as [sc|]; [|discriminate].
  destruct (gather2 _ _) as [r'|e]; [|discriminate].
  simpl. intros H. injection H as _ <-. exists l, pos. auto.
Qed.

Lemma open_position_active_ok (le se sym base : string) (su fr now : Q) (s : ExecState) :
  heap_ok s -> active_ok s -> active_ok (snd (open_position le se sym base su fr now s)).
Proof.
  intros [Ha Hn] Hact.
  destruct (open_position le se sym base su fr now s) as [[l|e] s'] eqn:E; simpl.
  - destruct (open_position_ok_state _ _ _ _ _ _ _ _ _ _ E) as (-> & p & -> & _ & Hst & _).
    intros k l' Hk. simpl in *.
    apply lookup_insert_Some in Hk as [[<- <-] | [Hne Hk]].
    + exists p. rewrite lookup_insert_eq. auto.
    + destruct (Hact k l' Hk) as (p' & Hp' & Hid & Hs').
      assert (Hlt : (l' < next_loc s)%positive) by (apply Hn; rewrite Hp'; eexists; reflexivity).
      exists p'. rewrite lookup_insert_ne by lia. auto.
  - rewrite (open_position_raise_state _ _ _ _ _ _ _ _ _ _ E). exact Hact.
Qed.

Lemma close_position_active_ok (pos_id : string) (s : ExecState) :
  active_ok s -> active_ok (snd (close_position pos_id s)).
Proof.
  intros Hact.
  destruct (close_position pos_id s) as [[r|e] s'] eqn:E; simpl.
  - destruct (close_position_ok_state _ _ _ _ E) as (l & pos & Hl & Hh & ->).
    intros k l' Hk. simpl in *.
    apply lookup_delete_Some in Hk as [Hne Hk].
    destruct (Hact k l' Hk) as (p' & Hp' & Hid & Hs').
    destruct (Hact pos_id l Hl) as (p & Hp & Hidp & _).
    assert (Hll : l <> l').
    { intros ->. rewrite Hp in Hp'. injection Hp' as ->. congruence. }
    exists p'. rewrite lookup_insert_ne by exact Hll. auto.
  - rewrite (close_position_raise_state _ _ _ _ E). exact Hact.
Qed.

Lemma run_cmds_inv (cmds : list Cmd) :
  forall s, heap_ok s -> active_ok s ->
  heap_ok (run_cmds cmds s) /\ active_ok (run_cmds cmds s) /\
  clients (run_cmds cmds s) = clients s.
Proof.
  induction cmds as [|c cs IH]; intros s Hh Ha; simpl; [auto|].
  destruct c as [le se sym base su fr now | pid].
  - assert (Hc : clients (snd (open_position le se sym base su fr now s)) = clients s).
    { destruct (open_position le se sym base su fr now s) as [[l|e] s'] eqn:E; simpl.
      - destruct (open_position_ok_state _ _ _ _ _ _ _ _ _ _ E) as (_ & p & -> & _). reflexivity.
      - rewrite (open_position_raise_state _ _ _ _ _ _ _ _ _ _ E). reflexivity. }
    destruct (IH _ (open_position_heap_ok le se sym base su fr now s Hh)
                   (open_position_active_ok le se sym base su fr now s Hh Ha)) as (H1 & H2 & H3).
    rewrite H3, Hc. auto.
  - assert (Hc : clients (snd (close_position pid s)) = clients s).
    { destruct (close_position pid s) as [[r|e] s'] eqn:E; simpl.
      - destruct (close_position_ok_state _ _ _ _ E) as (l & pos & _ & _ & ->). reflexivity.
      - rewrite (close_position_raise_state _ _ _ _ E). reflexivity. }
    destruct (IH _ (close_position_heap_ok pid s Hh) (close_position_active_ok pid s Ha))
      as (H1 & H2 & H3).
    rewrite H3, Hc. auto.
Qed.

(** Along any sequence of [open_position] and [close_position] calls on a
    fresh [ArbExecutor] (each call's exception caught by the caller), every
    id of [active_positions] refers to an allocated position object that
    carries that id and has status ["open"], and the clients never change. *)
Theorem executor_run_invariant (cs : gmap string Client) (cmds : list Cmd) :
  heap_ok (run_cmds cmds (executor_init cs)) /\
  active_ok (run_cmds cmds (executor_init cs)) /\
  clients (run_cmds cmds (executor_init cs)) = cs.
Proof.
  apply run_cmds_inv; [apply heap_ok_init|].
  intros k l Hk. simpl in Hk. rewrite lookup_empty in Hk. discriminate.
Qed.

(** A call that raises leaves the executor unchanged: [open_position] and
    [close_position] only write their state after every order has
    returned. An unknown long (then short) exchange raises [KeyError] on
    its name before any order is placed. *)
Theorem executor_raise_atomic (le se sym base : string) (su fr now : Q) (pos_id : string)
  (s : ExecState) :
  (forall e s', open_position le se sym base su fr now s = (Raise e, s') -> s' = s) /\
  (forall e s', close_position pos_id s = (Raise e, s') -> s' = s) /\
  (clients s !! le = None ->
     open_position le se sym base su fr now s = (Raise (PyExc "KeyError" le), s)) /\
  (is_Some (clients s !! le) -> clients s !! se = None ->
     open_position le se sym base su fr now s = (Raise (PyExc "KeyError" se), s)).
Proof.
  split; [intros e s'; apply open_position_raise_state|].
  split; [intros e s'; apply close_position_raise_state|].
  unfold open_position, m_bind, m_get, m_lift, dict_get. split.
  - intros ->. reflexivity.
  - intros [lc ->] ->. reflexivity.
Qed.

(** Opening then closing a position with clients whose orders always
    return: [open_position] stores the new object under
    ["arb_" + int(now)], [close_position] of that id returns zero funding
    and P&L, marks the object ["closed"] and removes the id, so
    [active_positions] is the original without that id; closing it again
    raises [ValueError]. *)
Theorem open_close_round_trip (le se sym base : string) (su fr now : Q) (s : ExecState)
  (lc sc : Client) :
  clients s !! le = Some lc -> clients s !! se = Some sc ->
  (forall o, exists r, lc o = Ok r) -> (forall o, exists r, sc o = Ok r) ->
  exists s1 s2 p,
    open_position le se sym base su fr now s = (Ok (next_loc s), s1) /\
    close_position ("arb_" +:+ pretty (Qfloor now))%string s1
      = (Ok (Summary.mk ("arb_" +:+ pretty (Qfloor now))%string 0 0), s2) /\
    active_positions s2 = delete ("arb_" +:+ pretty (Qfloor now))%string (active_positions s) /\
    heap s2 = <[next_loc s := p]> (heap s) /\
    ArbPosition.id p = ("arb_" +:+ pretty (Qfloor now))%string /\
    ArbPosition.status p = "closed"%string /\
    close_position ("arb_" +:+ pretty (Qfloor now))%string s2
      = (Raise (PyExc "ValueError"
                  ("Position " +:+ ("arb_" +:+ pretty (Qfloor now)) +:+ " not found")), s2).
Proof.
  intros Hl Hs Hlok Hsok.
  destruct (Hlok (long_leg_order le sym su)) as [lr Hlr].
  destruct (Hsok (short_leg_order se sym su)) as [sr Hsr].
  set (pid := ("arb_" +:+ pretty (Qfloor now))%string).
  set (p := ArbPosition.mk pid
      (Position.mk le sym LONG (Order.filled_size lr) (Order.fill_price lr) now 0 0)
      (Position.mk se sym SHORT (Order.filled_size sr) (Order.fill_price sr) now 0 0)
      base now fr 0 0 "open").
  set (s1 := with_heap s (<[next_loc s := p]> (heap s)) (<[pid := next_loc s]> (active_positions s))
               (Pos.succ (next_loc s))).
  assert (Ho : open_position le se sym base su fr now s = (Ok (next_loc s), s1)).
  { unfold open_position, m_bind, m_get, m_lift, m_put, m_ret, dict_get. rewrite Hl, Hs.
    fold (long_leg_order le sym su) (short_leg_order se sym su). rewrite Hlr, Hsr. reflexivity. }
  destruct (Hlok (Order.new le sym SHORT (Order.filled_size lr) MARKET)) as [clr Hclr].
  destruct (Hsok (Order.new se sym LONG (Order.filled_size sr) MARKET)) as [csr Hcsr].
  set (s2 := with_heap s1 (<[next_loc s := ArbPosition.set_status p "closed"]> (heap s1))
               (delete pid (active_positions s1)) (next_loc s1)).
  assert (Hc : close_position pid s1 = (Ok (Summary.mk pid 0 0), s2)).
  { unfold close_position, m_bind, m_get, m_lift, m_put, m_ret, m_raise, dict_get.
    simpl. rewrite !lookup_insert_eq. simpl. rewrite Hl, Hs, Hclr, Hcsr. reflexivity. }
  exists s1, s2, (ArbPosition.set_status p "closed").
  split; [exact Ho|]. split; [exact Hc|].
  split; [simpl; apply delete_insert_eq|].
  split; [simpl; apply insert_insert_eq|].
  split; [reflexivity|]. split; [reflexivity|].
  unfold close_position, m_bind, m_get. simpl. rewrite lookup_delete_eq. reflexivity.
Qed.

(** Two positions opened within the same second get the same id
    ["arb_" + int(now)]: the second replaces the first in
    [active_positions], and the first object, still ["open"], is no longer
    reachable from any id, so [close_position] can never close it. *)
Theorem open_position_same_second_orphans (s s1 s2 : ExecState) (l1 l2 : loc)
  (le1 se1 sym1 base1 le2 se2 sym2 base2 : string) (su1 fr1 now1 su2 fr2 now2 : Q) :
  heap_ok s -> Qfloor now1 = Qfloor now2 ->
  open_position le1 se1 sym1 base1 su1 fr1 now1 s = (Ok l1, s1) ->
  open_position le2 se2 sym2 base2 su2 fr2 now2 s1 = (Ok l2, s2) ->
  l1 <> l2 /\
  (forall k, active_positions s2 !! k <> Some l1) /\
  exists p, heap s2 !! l1 = Some p /\ ArbPosition.status p = "open"%string /\
    active_positions s2 !! ArbPosition.id p = Some l2.
Proof.
  intros [Ha Hn] Hfl H1 H2.
  destruct (open_position_ok_state _ _ _ _ _ _ _ _ _ _ H1) as (-> & p1 & -> & Hid1 & Hst1 & _).
  destruct (open_position_ok_state _ _ _ _ _ _ _ _ _ _ H2) as (Hl2 & p2 & -> & Hid2 & _).
  simpl in Hl2. subst l2.
  assert (Hid : ArbPosition.id p2 = ArbPosition.id p1) by (rewrite Hid1, Hid2, Hfl; reflexivity).
  split; [lia|]. split.
  - intros k Hk. simpl in Hk. rewrite Hid in Hk.
    apply lookup_insert_Some in Hk as [[_ Hk] | [Hne Hk]]; [lia|].
    apply lookup_insert_Some in Hk as [[Hk _] | [Hne' Hk]]; [congruence|].
    assert (Hlt : (next_loc s < next_loc s)%positive) by (apply (Ha k), Hn in Hk; exact Hk).
    lia.
  - exists p1. simpl. rewrite lookup_insert_ne by lia. rewrite lookup_insert_eq.
    split; [reflexivity|]. split; [exact Hst1|]. rewrite <- Hid. apply lookup_insert_eq.
Qed.


(* ------------------------------------------------------------------ *)
(** ** Witnesses of the theorems above *)

Lemma SimulatedClient_place_order_new_position_witness :
  exists r c', SimulatedClient_place_order 0 (SimulatedClient_new "binance") sim_sol_buy = Ok (r, c') /\
    orders c' = [r].
Proof.
  destruct (SimulatedClient_place_order_new_position 0 (SimulatedClient_new "binance") sim_sol_buy)
    as (r & c' & H & _ & _ & _ & _ & Ho); [vm_compute; reflexivity|].
  exists r, c'. split; [exact H | exact Ho].
Defined.

Lemma SimulatedClient_place_order_same_side_witness :
  exists r c' fp, SimulatedClient_place_order 0 sim_long_client sim_sol_buy = Ok (r, c') /\
    Order.fill_price r = Some fp.
Proof.
  destruct (SimulatedClient_place_order_same_side 0 sim_long_client sim_sol_buy sim_long_position 100)
    as (r & c' & fp & H & Hf & _); [vm_compute; reflexivity | reflexivity | reflexivity
                                   | intros Hz; vm_compute in Hz; discriminate |].
  exists r, c', fp. split; [exact H | exact Hf].
Defined.

Lemma SimulatedClient_place_order_zero_size_raises_witness :
  SimulatedClient_place_order 0 sim_long_client (Order.new "binance" "SOLUSDT" LONG (-10) MARKET)
  = Raise (PyExc "ZeroDivisionError" "float division by zero").
Proof.
  apply (SimulatedClient_place_order_zero_size_raises 0 sim_long_client
           (Order.new "binance" "SOLUSDT" LONG (-10) MARKET) sim_long_position 100);
    [vm_compute; reflexivity | reflexivity | reflexivity | vm_compute; reflexivity].
Defined.

Lemma SimulatedClient_place_order_opposite_side_witness :
  exists r c', SimulatedClient_place_order 0 sim_long_client (sim_sol_sell 4) = Ok (r, c') /\
    get_position c' "SOLUSDT" = Some (pos_resize sim_long_position (Some 100) (10 - 4)).
Proof.
  destruct (SimulatedClient_place_order_opposite_side 0 sim_long_client (sim_sol_sell 4) sim_long_position)
    as (r & c' & H & _ & _ & Hlt); [vm_compute; reflexivity | discriminate |].
  exists r, c'. split; [exact H|]. apply Hlt. vm_compute. reflexivity.
Defined.

Lemma SimulatedClient_round_trip_witness :
  exists r r' c1 c2,
    SimulatedClient_place_order 0 (SimulatedClient_new "binance") sim_sol_buy = Ok (r, c1) /\
    SimulatedClient_place_order 1 c1 (sim_sol_sell 10) = Ok (r', c2) /\
    positions c2 = ∅.
Proof.
  destruct (SimulatedClient_round_trip 0 1 (SimulatedClient_new "binance") sim_sol_buy (sim_sol_sell 10))
    as (r & r' & c1 & c2 & H1 & H2 & Hp & _);
    [vm_compute; reflexivity | reflexivity | discriminate | reflexivity |].
  exists r, r', c1, c2. auto.
Defined.

Lemma SimulatedClient_reachable_invariant_witness :
  get_balance sim_after_buy = {[ "USDT"%string := 10000 ]} /\ sc_exchange sim_after_buy = "binance"%string.
Proof.
  destruct (SimulatedClient_reachable_invariant "binance" sim_after_buy) as (Hb & He & _).
  - apply (sim_reach_step _ (SimulatedClient_new "binance") 0 sim_sol_buy
             (Order.mk "binance" "SOLUSDT" LONG 10 MARKET None (Some "sim_0") "filled" (Some 100) 10));
      [apply sim_reach_refl | vm_compute; reflexivity].
  - split; assumption.
Defined.

Lemma calculate_break_even_monotone_witness :
  exists m1 m2, calculate_break_even 0 1 = Ok m1 /\ calculate_break_even 0 2 = Ok m2 /\ m1 < m2.
Proof.
  destruct (calculate_break_even 0 1) as [m1|e] eqn:E1; [|vm_compute in E1; discriminate].
  destruct (calculate_break_even 0 2) as [m2|e] eqn:E2; [|vm_compute in E2; discriminate].
  exists m1, m2. split; [reflexivity|]. split; [reflexivity|].
  apply (calculate_break_even_monotone 0 1 2 m1 m2); [lia | exact E1 | exact E2].
Defined.

Lemma strategy_result_spec_witness :
  exists r, strategy_result [-2 # 1000; -1 # 1000; 0] (-15 # 10000) (-3 # 10000) = Ok r /\
    0 <= sr_win_rate r <= 100.
Proof.
  destruct (strategy_result [-2 # 1000; -1 # 1000; 0] (-15 # 10000) (-3 # 10000)) as [r|e] eqn:E;
    [|vm_compute in E; discriminate].
  exists r. split; [reflexivity|].
  apply (strategy_result_spec [-2 # 1000; -1 # 1000; 0] (-15 # 10000) (-3 # 10000) r E).
Defined.

Lemma score_all_single_threshold_witness :
  score_all Config_default "2026-01-01T00:00:00" [RateData.mk "binance" "BTCUSDT" (-2 # 1000)] <> [].
Proof.
  apply (score_all_single_threshold Config_default "2026-01-01T00:00:00"
           (RateData.mk "binance" "BTCUSDT" (-2 # 1000)));
    [vm_compute; reflexivity | vm_compute; reflexivity | vm_compute; discriminate
    | vm_compute; discriminate].
Defined.

Lemma scorer_summary_bounds_witness :
  exists best avg,
    scorer_summary (score_all Config_default "2026-01-01T00:00:00"
                      [RateData.mk "binance" "BTCUSDT" (-2 # 1000);
                       RateData.mk "bybit" "ETHUSDT" (-3 # 1000)]) = Some (best, avg) /\
    50 <= avg <= Opportunity.net_yield_annualized best.
Proof.
  destruct (scorer_summary (score_all Config_default "2026-01-01T00:00:00"
                      [RateData.mk "binance" "BTCUSDT" (-2 # 1000);
                       RateData.mk "bybit" "ETHUSDT" (-3 # 1000)])) as [[best avg]|] eqn:E;
    [|vm_compute in E; discriminate].
  exists best, avg. split; [reflexivity|].
  destruct (scorer_summary_bounds Config_default "2026-01-01T00:00:00" _ best avg E)
    as (_ & _ & Hmin & Hmax).
  split; assumption.
Defined.

Lemma simulate_bookkeeping_witness :
  exists st, simulate zero_size_config lifecycle_rows = Ok st /\
    total_pnl st == qsum Trade.pnl (trades st) /\ length (trades st) = 1%nat.
Proof.
  destruct (simulate_bookkeeping zero_size_config lifecycle_rows) as (st & E & _ & Hp & _).
  exists st. split; [exact E|]. split; [exact Hp|].
  vm_compute in E. injection E as <-. reflexivity.
Defined.

Lemma run_backtest_raises_iff_witness :
  exists r, run_backtest lifecycle_rows zero_size_config = Ok (Report r) /\
    total_trades r = 1%nat /\ annualized_return r = NaN.
Proof.
  destruct (run_backtest_raises_iff lifecycle_rows zero_size_config) as (st & E & _ & _ & H3).
  assert (Hps : position_size zero_size_config == 0) by (vm_compute; reflexivity).
  assert (Ht : trades st <> []) by (vm_compute in E; injection E as <-; discriminate).
  destruct (H3 Hps Ht) as (r & Hr & Ha).
  exists r. split; [exact Hr|]. split.
  - vm_compute in Hr. injection Hr as <-. reflexivity.
  - rewrite Ha. vm_compute in E. injection E as <-. reflexivity.
Defined.

Lemma run_backtest_report_witness :
  exists r, run_backtest lifecycle_rows zero_size_config = Ok (Report r) /\
    (1 <= period_days r)%Z /\ 0 <= win_rate r <= 100.
Proof.
  destruct (run_backtest lifecycle_rows zero_size_config) as [[|r]|e] eqn:E;
    [vm_compute in E; discriminate| |vm_compute in E; discriminate].
  exists r. split; [reflexivity|].
  destruct (run_backtest_report lifecycle_rows zero_size_config r E)
    as (_ & Hd & _ & Hw & _). split; assumption.
Defined.

Lemma open_close_round_trip_witness :
  exists s1 s2,
    open_sol sim_executor = (Ok 1%positive, s1) /\
    close_position ("arb_" +:+ pretty (Qfloor 0))%string s1
      = (Ok (Summary.mk ("arb_" +:+ pretty (Qfloor 0))%string 0 0), s2) /\
    active_positions s2 = ∅.
Proof.
  destruct (open_close_round_trip "binance" "bybit" "SOLUSDT" "SOL" 1000 (-2 # 1000) 0
              sim_executor (sim_place_order 0) (sim_place_order 0))
    as (s1 & s2 & p & Ho & Hc & Ha & _); [reflexivity | reflexivity
    | intros o; eexists; reflexivity | intros o; eexists; reflexivity |].
  exists s1, s2. split; [exact Ho|]. split; [exact Hc|]. rewrite Ha. reflexivity.
Defined.

Lemma open_position_same_second_orphans_witness :
  exists p, heap (snd (open_eth_half_second (snd (open_sol sim_executor)))) !! 1%positive = Some p /\
    ArbPosition.status p = "open"%string /\
    active_positions (snd (open_eth_half_second (snd (open_sol sim_executor)))) !! ArbPosition.id p
      = Some 2%positive.
Proof.
  destruct (open_position_same_second_orphans sim_executor (snd (open_sol sim_executor))
              (snd (open_eth_half_second (snd (open_sol sim_executor)))) 1%positive 2%positive
              "binance" "bybit" "SOLUSDT" "SOL" "binance" "bybit" "ETHUSDT" "ETH"
              1000 (-2 # 1000) 0 500 (-1 # 1000) (1 # 2))
    as (_ & _ & Hp); [apply heap_ok_init | reflexivity | vm_compute; reflexivity
    | vm_compute; reflexivity | exact Hp].
Defined.
